(** * 3d-geometric-search: the descriptor pipeline and the similarity index

    A shallow embedding of
      - [app/services/search/similarity_search.py] (class [SimilaritySearch]),
      - [app/services/search/index_manager.py]     (class [IndexManager]),
      - [app/services/geometry/mesh_processor.py]  (class [MeshProcessor]),
      - [app/services/geometry/feature_extractor.py] (class [FeatureExtractor]),
    together with the fragments of numpy, faiss, trimesh and scikit-learn
    those classes call.

    Numbers.  The Python code computes with IEEE floats; here every float is
    an ideal real number ([R]), so rounding, overflow, [nan] and [inf] are
    outside the model: a quotient by zero or the logarithm of a non-positive
    number has the value the functions of [R] give it.  The one [nan] the
    control flow of the code meets, the centroid of a mesh without faces, is
    represented (type [fl]).

    Effects.  A method of a Python object is a function in the monad [M S],
    which threads the object [S] and can raise: a raised exception keeps the
    mutations made before it, as in Python. *)

From Stdlib Require Import Reals Lra Lia List ZArith Bool Arith.
From Stdlib Require Strings.String.
From Stdlib Require Import Sorting.Sorted.
Import ListNotations.

Local Open Scope R_scope.

(** ** Python outcomes *)

Inductive exn : Type :=
| ValueError        (* raise ValueError(...), numpy shape errors *)
| IndexError        (* list index out of range *)
| AssertionError    (* faiss' Python wrapper: assert d == self.d *)
| RuntimeError      (* faiss.read_index on an unreadable blob *)
| UnpicklingError   (* pickle.load on an undeserializable file *)
| OSError           (* file system failures *)
| LibraryError.     (* any other exception raised inside a library call *)

Inductive outcome (A : Type) : Type :=
| Returns (a : A)
| Raises (e : exn).

Arguments Returns {A} a.
Arguments Raises {A} e.

(** State threading with exceptions: the state after a raise is the state
    reached at the raise. *)
Definition M (S A : Type) : Type := S -> outcome A * S.

Definition ret {S A} (a : A) : M S A := fun s => (Returns a, s).
Definition raise {S A} (e : exn) : M S A := fun s => (Raises e, s).
Definition bind {S A B} (c : M S A) (k : A -> M S B) : M S B :=
  fun s => match c s with
           | (Returns a, s') => k a s'
           | (Raises e, s') => (Raises e, s')
           end.
Definition get {S} : M S S := fun s => (Returns s, s).
Definition put {S} (s : S) : M S unit := fun _ => (Returns tt, s).
Definition lift {S A} (o : outcome A) : M S A := fun s => (o, s).

(** [try: c except Exception: h] *)
Definition try_except {S A} (c : M S A) (h : exn -> M S A) : M S A :=
  fun s => match c s with
           | (Returns a, s') => (Returns a, s')
           | (Raises e, s') => h e s'
           end.

Declare Scope py_scope.
Delimit Scope py_scope with py.
Notation "x <- c ;; k" := (bind c (fun x => k))
  (at level 61, c at next level, right associativity) : py_scope.
Notation "c ;;; k" := (bind c (fun _ => k))
  (at level 61, right associativity) : py_scope.

Fixpoint mapM {S A B} (f : A -> M S B) (l : list A) : M S (list B) :=
  match l with
  | [] => ret []
  | a :: l' => (b <- f a ;; bs <- mapM f l' ;; ret (b :: bs))%py
  end.

(** Unfold the monad and compute. *)
Ltac run_py :=
  unfold bind, get, put, lift, raise, ret, try_except; simpl.

(** ** numpy *)

Module np.

(** A two-dimensional array of shape [(length rows, shape1)]; a
    one-dimensional array is a [list R]. *)
Record ndarray : Type := mk_ndarray { shape1 : nat; rows : list (list R) }.

Definition shape0 (a : ndarray) : nat := length (rows a).

(** [v.reshape(1, -1)] *)
Definition reshape_row (v : list R) : ndarray :=
  {| shape1 := length v; rows := [v] |}.

(** [np.array([v])] *)
Definition array_of_row (v : list R) : ndarray := reshape_row v.

Definition sum (v : list R) : R := fold_right Rplus 0 v.

Definition sum_sq (v : list R) : R := sum (map (fun x => x * x) v).

(** [np.dot(u, w)] *)
Definition dot (u w : list R) : R :=
  sum (map (fun p => fst p * snd p) (combine u w)).

(** [np.linalg.norm(v)] *)
Definition norm (v : list R) : R := sqrt (sum_sq v).

(** [np.linalg.norm(a, axis=1, keepdims=True)]: one norm per row. *)
Definition norm_axis1 (a : ndarray) : list R := map norm (rows a).

(** [norms[norms == 0] = 1] *)
Definition replace_zeros (norms : list R) : list R :=
  map (fun n => if Req_dec_T n 0 then 1 else n) norms.

(** [row / n] *)
Definition div_row (row : list R) (n : R) : list R :=
  map (fun x => x / n) row.

(** [a / norms] with [norms] of shape [(len(a), 1)]. *)
Definition div_rows (a : ndarray) (norms : list R) : ndarray :=
  {| shape1 := shape1 a;
     rows := map (fun rn => div_row (fst rn) (snd rn)) (combine (rows a) norms) |}.

(** What [a / norms] makes of one row once [norms[norms == 0] = 1] is done. *)
Definition normalized_row (row : list R) : list R :=
  if Req_dec_T (norm row) 0 then row else div_row row (norm row).

End np.

(** ** faiss: the flat L2 index

    [IndexFlatL2] is the exact index: a search compares the query with every
    stored vector and reports squared Euclidean distances, smallest first. *)

Module faiss.

(** [faiss.IndexFlatL2(d)]: the stored vectors, in insertion order. *)
Record IndexFlatL2 : Type := mk_index { d : nat; xb : list (list R) }.

Definition new (dim : nat) : IndexFlatL2 := {| d := dim; xb := [] |}.

Definition ntotal (idx : IndexFlatL2) : nat := length (xb idx).

(** [index.add(x)]; the wrapper asserts the row width. *)
Definition add (idx : IndexFlatL2) (x : np.ndarray) : outcome IndexFlatL2 :=
  if Nat.eqb (np.shape1 x) (d idx)
  then Returns {| d := d idx; xb := xb idx ++ np.rows x |}
  else Raises AssertionError.

(** The metric of [IndexFlatL2] is the squared Euclidean distance. *)
Definition fvec_L2sqr (x y : list R) : R :=
  np.sum_sq (map (fun p => fst p - snd p) (combine x y)).

(** A candidate is a pair (squared distance, label).  Insert it before the
    first candidate that is not closer: among equal distances the smaller
    label, that is the earlier insertion, comes first. *)
Fixpoint insert_hit (h : R * nat) (l : list (R * nat)) : list (R * nat) :=
  match l with
  | [] => [h]
  | h' :: t => if Rle_dec (fst h) (fst h') then h :: l else h' :: insert_hit h t
  end.

Definition sort_hits (l : list (R * nat)) : list (R * nat) :=
  fold_right insert_hit [] l.

(** The order of the result rows: ascending distance. *)
Definition closer (a b : R * nat) : Prop := fst a <= fst b.

(** The [k] nearest stored vectors of one query row, closest first. *)
Definition knn (idx : IndexFlatL2) (q : list R) (k : nat) : list (R * nat) :=
  let dists := map (fvec_L2sqr q) (xb idx) in
  firstn k (sort_hits (combine dists (seq 0 (ntotal idx)))).

(** [index.search(x, k)] returns [(distances, labels)], one row per query.
    The wrapper asserts the row width and [k > 0]. *)
Definition search (idx : IndexFlatL2) (x : np.ndarray) (k : Z)
  : outcome (list (list R) * list (list nat)) :=
  if negb (Nat.eqb (np.shape1 x) (d idx)) then Raises AssertionError
  else if (k <=? 0)%Z then Raises AssertionError
  else
    let res := map (fun q => knn idx q (Z.to_nat k)) (np.rows x) in
    Returns (map (map fst) res, map (map snd) res).

End faiss.

(** ** The two files of the durable index format *)

Module storage.

(** What a path holds: nothing, bytes its reader rejects, or a value. *)
Inductive file (A : Type) : Type :=
| Missing
| Corrupt
| Stored (a : A).

Arguments Missing {A}.
Arguments Corrupt {A}.
Arguments Stored {A} a.

(** [os.path.exists] *)
Definition exists_ {A} (f : file A) : bool :=
  match f with Missing => false | _ => true end.

(** The pickled dict [{"model_ids": ..., "dimension": ...}]. *)
Record metadata : Type := mk_metadata {
  md_model_ids : list Z;
  md_dimension : nat
}.

(** The files at [index_path] and [metadata_path]; [writable] tells
    whether the directory accepts writes. *)
Record disk : Type := mk_disk {
  index_file : file faiss.IndexFlatL2;
  metadata_file : file metadata;
  writable : bool
}.

(** [faiss.read_index(path)] *)
Definition read_index (f : file faiss.IndexFlatL2) : outcome faiss.IndexFlatL2 :=
  match f with
  | Stored i => Returns i
  | _ => Raises RuntimeError
  end.

(** [pickle.load(open(path, "rb"))] *)
Definition pickle_load (f : file metadata) : outcome metadata :=
  match f with
  | Stored m => Returns m
  | Corrupt => Raises UnpicklingError
  | Missing => Raises OSError
  end.

End storage.

(** ** similarity_search.py *)

Module SimilaritySearch.
Import storage.

Record t : Type := mk {
  dimension : nat;
  index : faiss.IndexFlatL2;
  model_ids : list Z
}.

Definition set_index (self : t) (i : faiss.IndexFlatL2) : t :=
  {| dimension := dimension self; index := i; model_ids := model_ids self |}.
Definition set_model_ids (self : t) (ids : list Z) : t :=
  {| dimension := dimension self; index := index self; model_ids := ids |}.
Definition set_dimension (self : t) (dim : nat) : t :=
  {| dimension := dim; index := index self; model_ids := model_ids self |}.

(** [_initialize_index] *)
Definition _initialize_index : M t unit :=
  fun self => (Returns tt, set_index self (faiss.new (dimension self))).

(** [__init__(dimension=83)] *)
Definition __init__ (dim : nat) : t :=
  snd (_initialize_index
         {| dimension := dim; index := faiss.new 0; model_ids := [] |}).

(** [_normalize_vectors] *)
Definition _normalize_vectors (vectors : np.ndarray) : np.ndarray :=
  let norms := np.norm_axis1 vectors in
  let norms := np.replace_zeros norms in
  np.div_rows vectors norms.

(** [add_vectors] *)
Definition add_vectors (vectors : np.ndarray) (ids : list Z) : M t unit :=
  (self <- get ;;
   if negb (Nat.eqb (np.shape1 vectors) (dimension self))
   then raise ValueError
   else
     let vectors := _normalize_vectors vectors in
     i <- lift (faiss.add (index self) vectors) ;;
     put (set_index self i) ;;;
     self <- get ;;
     put (set_model_ids self (model_ids self ++ ids)))%py.

(** [self.model_ids[idx]] *)
Definition model_id_at (self : t) (idx : nat) : M t Z :=
  match nth_error (model_ids self) idx with
  | Some id => ret id
  | None => raise IndexError
  end.

(** The score the code derives from a number [d] returned by faiss:
    [max(0, 1 - (d**2 / 4))]. *)
Definition similarity (d : R) : R := Rmax 0 (1 - (d * d) / 4).

(** [search] *)
Definition search (query_vector : list R) (k : Z) : M t (list Z * list R) :=
  (self <- get ;;
   if negb (Nat.eqb (length query_vector) (dimension self))
   then raise ValueError
   else
     let query_vector := _normalize_vectors (np.reshape_row query_vector) in
     let k := Z.min k (Z.of_nat (faiss.ntotal (index self))) in
     res <- lift (faiss.search (index self) query_vector k) ;;
     let '(distances, indices) := res in
     result_model_ids <- mapM (model_id_at self) (hd [] indices) ;;
     let result_distances := hd [] distances in
     let similarities := map similarity result_distances in
     ret (result_model_ids, similarities))%py.

(** [rebuild_index] *)
Definition rebuild_index (vectors : np.ndarray) (ids : list Z) : M t unit :=
  (_initialize_index ;;;
   self <- get ;;
   put (set_model_ids self []) ;;;
   add_vectors vectors ids)%py.

(** [SimilaritySearch.save]: the index blob first, then the metadata. *)
Definition save (self : t) : M disk unit :=
  (fs <- get ;;
   if negb (writable fs) then raise RuntimeError
   else
     put {| index_file := Stored (index self);
            metadata_file := metadata_file fs;
            writable := writable fs |} ;;;
     fs <- get ;;
     put {| index_file := index_file fs;
            metadata_file := Stored {| md_model_ids := model_ids self;
                                       md_dimension := dimension self |};
            writable := writable fs |})%py.

(** [SimilaritySearch.load] *)
Definition load (fs : disk) : M t unit :=
  if negb (exists_ (index_file fs)) || negb (exists_ (metadata_file fs))
  then ret tt
  else
    (i <- lift (read_index (index_file fs)) ;;
     self <- get ;;
     put (set_index self i) ;;;
     md <- lift (pickle_load (metadata_file fs)) ;;
     self <- get ;;
     put (set_model_ids self (md_model_ids md)) ;;;
     self <- get ;;
     put (set_dimension self (md_dimension md)))%py.

(** [get_stats]: [(total_vectors, dimension)] *)
Definition get_stats (self : t) : nat * nat :=
  (faiss.ntotal (index self), dimension self).

(** The two files a successful [save] of [self] leaves behind. *)
Definition files_of (self : t) : disk :=
  {| index_file := Stored (index self);
     metadata_file := Stored {| md_model_ids := model_ids self;
                                md_dimension := dimension self |};
     writable := true |}.

(** [remove_vector]: nothing is removed, the answer is [False] in both
    branches. *)
Definition remove_vector (model_id : Z) : M t bool :=
  (self <- get ;;
   if negb (existsb (Z.eqb model_id) (model_ids self))
   then ret false
   else ret false)%py.

(** The invariant of the index: one identifier per stored vector, the i-th
    identifier standing for the i-th vector. *)
Definition coindexed (self : t) : Prop :=
  length (model_ids self) = faiss.ntotal (index self).

(** The entries of a co-indexed index, in storage order. *)
Definition entries (self : t) : list (Z * list R) :=
  combine (model_ids self) (faiss.xb (index self)).

End SimilaritySearch.

(** ** index_manager.py *)

Module IndexManager.
Import storage.

(** A row of the [models_3d] table, as far as the manager reads it. *)
Record Model3D : Type := mk_model {
  id : Z;
  feature_vector : option (list R)
}.

(** Python truthiness of [model.feature_vector]. *)
Definition truthy (fv : option (list R)) : bool :=
  match fv with
  | Some (_ :: _) => true
  | _ => false
  end.

Definition vector_of (fv : option (list R)) : list R :=
  match fv with Some v => v | None => [] end.

(** [np.array(list_of_lists, dtype=np.float32)] of a non-empty list:
    ragged rows are rejected. *)
Definition np_array (l : list (list R)) : outcome np.ndarray :=
  let w := length (hd [] l) in
  if forallb (fun r => Nat.eqb (length r) w) l
  then Returns {| np.shape1 := w; np.rows := l |}
  else Raises ValueError.

(** The manager object together with the disk it persists to. *)
Record t : Type := mk {
  search_engine : option SimilaritySearch.t;
  _ready : bool;
  fs : disk
}.

Definition __init__ (fs0 : disk) : t :=
  {| search_engine := None; _ready := false; fs := fs0 |}.

Definition set_engine (self : t) (e : SimilaritySearch.t) : t :=
  {| search_engine := Some e; _ready := _ready self; fs := fs self |}.
Definition set_ready (self : t) (b : bool) : t :=
  {| search_engine := search_engine self; _ready := b; fs := fs self |}.
Definition set_fs (self : t) (d : disk) : t :=
  {| search_engine := search_engine self; _ready := _ready self; fs := d |}.

(** Run a method of [self.search_engine]. *)
Definition on_engine {A} (c : M SimilaritySearch.t A) : M t A :=
  fun self =>
    match search_engine self with
    | None => (Raises LibraryError, self)
    | Some e => let '(o, e') := c e in (o, set_engine self e')
    end.

(** Run an operation on the disk. *)
Definition on_disk {A} (c : M disk A) : M t A :=
  fun self => let '(o, d') := c (fs self) in (o, set_fs self d').

(** [_save_index]: a failing save is logged and swallowed. *)
Definition _save_index : M t unit :=
  try_except
    (self <- get ;;
     match search_engine self with
     | None => raise LibraryError
     | Some e => on_disk (SimilaritySearch.save e)
     end)%py
    (fun _ => ret tt).

(** [initialize] *)
Definition initialize : M t unit :=
  (self <- get ;;
   put (set_engine self (SimilaritySearch.__init__ 83)) ;;;
   try_except
     (self <- get ;; on_engine (SimilaritySearch.load (fs self)))
     (fun _ => ret tt) ;;;
   self <- get ;;
   put (set_ready self true))%py.

(** [add_model] *)
Definition add_model (model_id : Z) (fv : list R) : M t unit :=
  (self <- get ;;
   if negb (_ready self) then raise RuntimeError
   else
     let vector := np.array_of_row fv in
     on_engine (SimilaritySearch.add_vectors vector [model_id]) ;;;
     _save_index)%py.

(** [search_similar]: the hits as [(model_id, similarity_score)] pairs. *)
Definition search_similar (query_vector : list R) (k : Z) : M t (list (Z * R)) :=
  (self <- get ;;
   if negb (_ready self) then raise RuntimeError
   else
     res <- on_engine (SimilaritySearch.search query_vector k) ;;
     let '(ids, similarities) := res in
     ret (combine ids similarities))%py.

(** [rebuild_index(db)], [models] being [db.query(Model3D).all()]. *)
Definition rebuild_index (models : list Model3D) : M t unit :=
  match models with
  | [] => ret tt
  | _ =>
    let kept := filter (fun m => truthy (feature_vector m)) models in
    let vectors := map (fun m => vector_of (feature_vector m)) kept in
    let ids := map id kept in
    match vectors with
    | [] => ret tt
    | _ =>
      (vectors_array <- lift (np_array vectors) ;;
       on_engine (SimilaritySearch.rebuild_index vectors_array ids) ;;;
       _save_index)%py
    end
  end.

(** [shutdown] *)
Definition shutdown : M t unit :=
  (self <- get ;;
   match _ready self, search_engine self with
   | true, Some _ => _save_index
   | _, _ => ret tt
   end)%py.

(** [get_stats] *)
Definition get_stats (self : t) : option (nat * nat) :=
  match _ready self, search_engine self with
  | true, Some e => Some (SimilaritySearch.get_stats e)
  | _, _ => None
  end.

(** [is_ready] *)
Definition is_ready (self : t) : bool := _ready self.

(** The entry count of the managed index ([total_vectors]). *)
Definition count (self : t) : nat :=
  match search_engine self with
  | Some e => faiss.ntotal (SimilaritySearch.index e)
  | None => 0%nat
  end.

(** A catalog snapshot without any usable feature vector. *)
Definition empty_catalog (models : list Model3D) : Prop :=
  forall m, In m models -> truthy (feature_vector m) = false.

End IndexManager.

(** A float array the real-number model can describe ([Num]), or one whose
    entries numpy computed as [nan] ([NaN]). *)
Inductive fl (A : Type) : Type :=
| Num (a : A)
| NaN.

Arguments Num {A} a.
Arguments NaN {A}.

(** ** trimesh: the parts of [Trimesh] the processor reads *)

Module trimesh.

Definition vec3 : Type := (R * R * R)%type.

Definition vadd (a b : vec3) : vec3 :=
  let '(ax, ay, az) := a in let '(bx, by_, bz) := b in (ax + bx, ay + by_, az + bz).
Definition vsub (a b : vec3) : vec3 :=
  let '(ax, ay, az) := a in let '(bx, by_, bz) := b in (ax - bx, ay - by_, az - bz).
Definition vscale (s : R) (a : vec3) : vec3 :=
  let '(ax, ay, az) := a in (s * ax, s * ay, s * az).
Definition vdiv (a : vec3) (s : R) : vec3 :=
  let '(ax, ay, az) := a in (ax / s, ay / s, az / s).
Definition cross (a b : vec3) : vec3 :=
  let '(ax, ay, az) := a in let '(bx, by_, bz) := b in
  (ay * bz - az * by_, az * bx - ax * bz, ax * by_ - ay * bx).
Definition vnorm (a : vec3) : R :=
  let '(ax, ay, az) := a in sqrt (ax * ax + ay * ay + az * az).
Definition vzero : vec3 := (0, 0, 0).

Definition vsum (l : list vec3) : vec3 := fold_right vadd vzero l.

(** The i-th coordinate, [v[i]] for i = 0, 1, 2. *)
Definition coord (i : nat) (v : vec3) : R :=
  let '(x, y, z) := v in
  match i with O => x | S O => y | _ => z end.

(** [a.mean(axis=0)] of a non-empty array of points. *)
Definition vmean (l : list vec3) : vec3 := vdiv (vsum l) (INR (length l)).

Definition triangle : Type := (vec3 * vec3 * vec3)%type.

Record Trimesh : Type := mk {
  vertices : list vec3;
  faces : list (nat * nat * nat)
}.

(** [mesh.vertices[face]]; an index out of range is an [IndexError]. *)
Definition triangle_of (vs : list vec3) (f : nat * nat * nat) : option triangle :=
  let '(i, j, k) := f in
  match nth_error vs i, nth_error vs j, nth_error vs k with
  | Some a, Some b, Some c => Some (a, b, c)
  | _, _, _ => None
  end.

Fixpoint all_some {A} (l : list (option A)) : option (list A) :=
  match l with
  | [] => Some []
  | Some a :: l' => match all_some l' with Some r => Some (a :: r) | None => None end
  | None :: _ => None
  end.

(** [mesh.triangles] *)
Definition triangles (m : Trimesh) : option (list triangle) :=
  all_some (map (triangle_of (vertices m)) (faces m)).

(** A triangle after its corners went through [f]. *)
Definition map_triangle (f : vec3 -> vec3) (t : triangle) : triangle :=
  let '(a, b, c) := t in (f a, f b, f c).

(** Centre on [c], then divide by [m]: what normalization does to a
    vertex. *)
Definition recentre (c : vec3) (m : R) (v : vec3) : vec3 := vdiv (vsub v c) m.

(** [mesh.triangles_center] *)
Definition triangle_center (t : triangle) : vec3 :=
  let '(a, b, c) := t in vdiv (vadd (vadd a b) c) 3.

(** [mesh.area_faces] *)
Definition triangle_area (t : triangle) : R :=
  let '(a, b, c) := t in vnorm (cross (vsub b a) (vsub c a)) / 2.

(** [Trimesh.centroid]: the average of the triangle centres weighted by the
    triangle areas; when the weights sum to zero, the plain mean of the
    centres, which numpy computes as [nan] for a mesh without faces. *)
Definition centroid_point (ts : list triangle) : vec3 :=
  let centers := map triangle_center ts in
  let areas := map triangle_area ts in
  if Req_dec_T (np.sum areas) 0
  then vmean centers
  else vdiv (vsum (map (fun t => vscale (triangle_area t) (triangle_center t)) ts))
            (np.sum areas).

Definition centroid_of (ts : list triangle) : fl vec3 :=
  match ts with
  | [] => NaN
  | _ => Num (centroid_point ts)
  end.

Definition centroid (m : Trimesh) : outcome (fl vec3) :=
  match triangles m with
  | None => Raises IndexError
  | Some ts => Returns (centroid_of ts)
  end.

(** [mesh.area] *)
Definition area_of (ts : list triangle) : R := np.sum (map triangle_area ts).

End trimesh.

(** ** mesh_processor.py *)

Module MeshProcessor.
Import trimesh.

(** [np.max] of a non-empty list. *)
Definition np_max (x : R) (l : list R) : R := fold_right Rmax x l.

Definition with_vertices (m : Trimesh) (vs : list vec3) : Trimesh :=
  {| vertices := vs; faces := faces m |}.

(** [_normalize_trimesh] *)
Definition _normalize_trimesh (mesh : Trimesh) : outcome (fl Trimesh) :=
  match centroid mesh with
  | Raises e => Raises e
  | Returns NaN =>
    match vertices mesh with
    | [] => Raises ValueError            (* np.max of an empty array *)
    | _ => Returns NaN
    end
  | Returns (Num c) =>
    let centered := map (fun v => vsub v c) (vertices mesh) in
    match map vnorm centered with
    | [] => Raises ValueError            (* np.max of an empty array *)
    | n :: ns =>
      let max_distance := np_max n ns in
      if Rlt_dec 0 max_distance
      then Returns (Num (with_vertices mesh (map (fun v => vdiv v max_distance) centered)))
      else Returns (Num (with_vertices mesh centered))
    end
  end.

(** The normalization as the specification words it: subtract the mean of
    the vertex positions, then divide by the largest vertex norm when that
    is positive. *)
Definition normalize_by_vertex_mean (mesh : Trimesh) : Trimesh :=
  let c := vmean (vertices mesh) in
  let centered := map (fun v => vsub v c) (vertices mesh) in
  let max_distance := np_max 0 (map vnorm centered) in
  if Rlt_dec 0 max_distance
  then with_vertices mesh (map (fun v => vdiv v max_distance) centered)
  else with_vertices mesh centered.


(** What [trimesh.load(path, force="mesh")] hands back. *)
Inductive loaded : Type :=
| LoadedTrimesh (m : Trimesh)
| LoadedScene (geometry : list Trimesh)
| LoadedOther.                     (* a point cloud, a path, ... *)

(** [trimesh.util.concatenate]: vertices appended, face indices shifted. *)
Definition shift_face (off : nat) (f : nat * nat * nat) : nat * nat * nat :=
  let '(i, j, k) := f in (off + i, off + j, off + k)%nat.

Definition concatenate (ms : list Trimesh) : Trimesh :=
  fold_left
    (fun acc m =>
       {| vertices := vertices acc ++ vertices m;
          faces := faces acc ++ map (shift_face (length (vertices acc))) (faces m) |})
    ms {| vertices := []; faces := [] |}.

(** [o3d.geometry.TriangleMesh] *)
Record O3DMesh : Type := mk_o3d {
  o3d_vertices : list vec3;
  o3d_triangles : list (nat * nat * nat)
}.

(** [_trimesh_to_open3d] *)
Definition _trimesh_to_open3d (mesh : Trimesh) : O3DMesh :=
  {| o3d_vertices := vertices mesh; o3d_triangles := faces mesh |}.

(** [_normalize_open3d]; [get_center] is the mean of the vertices. *)
Definition _normalize_open3d (mesh : O3DMesh) : outcome O3DMesh :=
  match o3d_vertices mesh with
  | [] => Raises ValueError              (* np.max of an empty array *)
  | _ =>
    let center := vmean (o3d_vertices mesh) in
    let translated := map (fun v => vsub v center) (o3d_vertices mesh) in
    let max_distance := np_max 0 (map vnorm translated) in
    if Rlt_dec 0 max_distance
    then Returns {| o3d_vertices := map (vscale (1 / max_distance)) translated;
                    o3d_triangles := o3d_triangles mesh |}
    else Returns {| o3d_vertices := translated; o3d_triangles := o3d_triangles mesh |}
  end.

Record t : Type := mk_processor { normalize : bool }.

(** The body of the [try] block of [load_mesh]. *)
Definition load_mesh_body (self : t) (file : outcome loaded)
  : outcome (fl Trimesh * O3DMesh) :=
  match file with
  | Raises e => Raises e
  | Returns l =>
    let mesh_trimesh :=
      match l with
      | LoadedTrimesh m => Returns m
      | LoadedScene g => Returns (concatenate g)
      | LoadedOther => Raises ValueError   (* "Unable to load mesh from file" *)
      end in
    match mesh_trimesh with
    | Raises e => Raises e
    | Returns m =>
      let mesh_o3d := _trimesh_to_open3d m in
      if normalize self then
        match _normalize_trimesh m with
        | Raises e => Raises e
        | Returns m' =>
          match _normalize_open3d mesh_o3d with
          | Raises e => Raises e
          | Returns o' => Returns (m', o')
          end
        end
      else Returns (Num m, mesh_o3d)
    end
  end.

(** [load_mesh]: [trimesh_load] is the file system seen through
    [trimesh.load]; any exception becomes the pair [(None, None)]. *)
Definition load_mesh (trimesh_load : String.string -> outcome loaded) (self : t)
  (file_path : String.string) : outcome (option (fl Trimesh) * option O3DMesh) :=
  match load_mesh_body self (trimesh_load file_path) with
  | Returns (m, o) => Returns (Some m, Some o)
  | Raises _ => Returns (None, None)
  end.



End MeshProcessor.

(** ** feature_extractor.py *)

Module FeatureExtractor.
Import trimesh.

(** The library calls of the extractor that are not spelled out here:
    random sampling (threading the ambient generator [rng]), the mesh
    properties computed by trimesh, and the symmetric eigenvalue solver for
    3x3 matrices. *)
Record library (rng : Type) : Type := mk_library {
  sample_surface : Trimesh -> nat -> rng -> list vec3 * rng;
  randint : nat -> nat -> nat -> rng -> list nat * rng;
  is_watertight : Trimesh -> bool;
  volume : Trimesh -> R;
  area : Trimesh -> R;
  extents : Trimesh -> vec3;
  edges : Trimesh -> nat;                       (* len(mesh.edges) *)
  convex_hull_volume : Trimesh -> outcome R;    (* mesh.convex_hull.volume *)
  eigvalsh : vec3 * vec3 * vec3 -> vec3
}.

Arguments sample_surface {rng} _.
Arguments randint {rng} _.
Arguments is_watertight {rng} _.
Arguments volume {rng} _.
Arguments area {rng} _.
Arguments extents {rng} _.
Arguments edges {rng} _.
Arguments convex_hull_volume {rng} _.
Arguments eigvalsh {rng} _.

Record t : Type := mk { d2_bins : nat }.

(** [FeatureExtractor()] *)
Definition default : t := {| d2_bins := 64 |}.

Definition eps : R := / 10 ^ 10.                (* 1e-10 *)


Definition list_min (x : R) (l : list R) : R := fold_right Rmin x l.
Definition list_max (x : R) (l : list R) : R := fold_right Rmax x l.

(** [np.histogram(a, bins=bins, density=True)[0]] for a non-empty [a]:
    equal-width bins over [[min a, max a]] (widened by a half on each side
    when they coincide), the last bin closed on the right. *)
Definition histogram_density (a : list R) (bins : nat) : list R :=
  let lo0 := list_min (hd 0 a) a in
  let hi0 := list_max (hd 0 a) a in
  let lo := if Req_dec_T lo0 hi0 then lo0 - / 2 else lo0 in
  let hi := if Req_dec_T lo0 hi0 then hi0 + / 2 else hi0 in
  let width := (hi - lo) / INR bins in
  let edge (i : nat) := lo + INR i * width in
  let in_bin (i : nat) (x : R) : bool :=
    if Rle_dec (edge i) x
    then if Nat.eqb (S i) bins
         then (if Rle_dec x hi then true else false)
         else (if Rlt_dec x (edge (S i)) then true else false)
    else false in
  map (fun i => INR (length (filter (in_bin i) a)) / INR (length a) / width)
      (seq 0 bins).

Section Extractor.
Variable rng : Type.
Variable lib : library rng.

(** [_compute_d2_descriptor(mesh, n_samples=10000)] *)
Definition _compute_d2_descriptor (self : t) (mesh : Trimesh) (n_samples : nat)
  (g : rng) : list R * rng :=
  let '(points, g) := sample_surface lib mesh n_samples g in
  let n_pairs := Nat.min (n_samples / 2) 5000 in
  let '(idx1, g) := randint lib 0 (length points) n_pairs g in
  let '(idx2, g) := randint lib 0 (length points) n_pairs g in
  let distances :=
    map (fun ij => vnorm (vsub (nth (fst ij) points vzero) (nth (snd ij) points vzero)))
        (combine idx1 idx2) in
  let hist := histogram_density distances (d2_bins self) in
  let total := np.sum hist + eps in
  (map (fun h => h / total) hist, g).

Definition vmin3 (e : vec3) : R := let '(x, y, z) := e in Rmin x (Rmin y z).


(** [_compute_bbox_features] *)
Definition _compute_bbox_features (mesh : Trimesh) : list R :=
  let '(e0, e1, e2) := extents lib mesh in
  let e0 := e0 + eps in
  let e1 := e1 + eps in
  let e2 := e2 + eps in
  [e0 / e1; e1 / e2; e0 / e2].

(** [np.clip(x, 0, 1)] *)
Definition clip01 (x : R) : R := Rmin (Rmax x 0) 1.

(** [_compute_convexity] *)
Definition _compute_convexity (mesh : Trimesh) : R :=
  if negb (is_watertight lib mesh) then / 2
  else
    match convex_hull_volume lib mesh with
    | Raises _ => / 2
    | Returns hull =>
      let convexity := if Rlt_dec 0 hull then volume lib mesh / hull else 1 in
      clip01 convexity
    end.






(** [sklearn.preprocessing.normalize(v.reshape(1, -1))[0]]: divide by the
    L2 norm, a zero norm being replaced by 1. *)
Definition normalize (v : list R) : list R :=
  let n := np.norm v in
  let n := if Req_dec_T n 0 then 1 else n in
  np.div_row v n.


End Extractor.

End FeatureExtractor.

(** ** main.py: the application lifespan *)

Module main.

(** Startup: [index_manager = IndexManager(); await index_manager.initialize()],
    on the disk [fs0]. *)
Definition startup (fs0 : storage.disk) : outcome unit * IndexManager.t :=
  IndexManager.initialize (IndexManager.__init__ fs0).

(** Shutdown: [if index_manager: await index_manager.shutdown()]. *)
Definition shutdown (index_manager : option IndexManager.t)
  : outcome unit * option IndexManager.t :=
  match index_manager with
  | Some m => let '(o, m') := IndexManager.shutdown m in (o, Some m')
  | None => (Returns tt, None)
  end.

(** The ["index"] entry of [health_check]: [true] stands for ["ready"]. *)
Definition health_index (index_manager : option IndexManager.t) : bool :=
  match index_manager with
  | Some m => IndexManager.is_ready m
  | None => false
  end.

End main.

(** ** Concrete inputs used below *)

Module Examples.
Import storage.

Definition e1 : list R := 1 :: repeat 0 82.

(** An index of dimension 83 holding one vector under identifier 1. *)
Definition one_entry : SimilaritySearch.t :=
  {| SimilaritySearch.dimension := 83;
     SimilaritySearch.index := {| faiss.d := 83; faiss.xb := [e1] |};
     SimilaritySearch.model_ids := [1%Z] |}.

Definition no_files : disk :=
  {| index_file := Missing; metadata_file := Missing; writable := true |}.

(** An index blob with one vector next to a metadata file without
    identifiers: each file readable, the two belonging to different saves. *)
Definition mismatched_files : disk :=
  {| index_file := Stored (SimilaritySearch.index one_entry);
     metadata_file := Stored {| md_model_ids := []; md_dimension := 83 |};
     writable := true |}.

(** A readable index blob with one vector next to a metadata file that
    does not unpickle (a save interrupted while writing it). *)
Definition corrupt_metadata : disk :=
  {| index_file := Stored (SimilaritySearch.index one_entry);
     metadata_file := Corrupt;
     writable := true |}.

(** A ready manager whose index holds one entry. *)
Definition one_entry_manager : IndexManager.t :=
  {| IndexManager.search_engine := Some one_entry;
     IndexManager._ready := true;
     IndexManager.fs := no_files |}.

(** A file system on which [trimesh.load] rejects every path. *)
Definition unreadable (path : String.string) : outcome MeshProcessor.loaded :=
  Raises ValueError.

(** A file of three points and no face, loaded as a mesh. *)
Definition points_only : trimesh.Trimesh :=
  {| trimesh.vertices := [(0, 0, 0); (1, 0, 0); (0, 1, 0)]; trimesh.faces := [] |}.

(** Two triangles of areas 6 and 3/2 in the plane z = 0. *)
Definition kite : trimesh.Trimesh :=
  {| trimesh.vertices := [(0, 0, 0); (4, 0, 0); (0, 3, 0); (-1, 0, 0)];
     trimesh.faces := [(0, 1, 2); (0, 2, 3)]%nat |}.

(** A stand-in for the libraries behind the extractor: the "samples" are
    the vertices, every random index is the lower bound, no mesh is
    watertight, and the eigenvalue solver reads the diagonal. *)
Definition simple_lib : FeatureExtractor.library unit :=
  {| FeatureExtractor.sample_surface := fun mesh _ g => (trimesh.vertices mesh, g);
     FeatureExtractor.randint := fun lo _ size g => (repeat lo size, g);
     FeatureExtractor.is_watertight := fun _ => false;
     FeatureExtractor.volume := fun _ => 0;
     FeatureExtractor.area := fun _ => 15 / 2;
     FeatureExtractor.extents := fun _ => (5, 3, 0);
     FeatureExtractor.edges := fun mesh => (3 * length (trimesh.faces mesh))%nat;
     FeatureExtractor.convex_hull_volume := fun _ => Raises LibraryError;
     FeatureExtractor.eigvalsh :=
       fun c => (trimesh.coord 0 (fst (fst c)), trimesh.coord 1 (snd (fst c)),
                 trimesh.coord 2 (snd c)) |}.

Definition kite_triangles : list trimesh.triangle :=
  [((0, 0, 0), (4, 0, 0), (0, 3, 0)); ((0, 0, 0), (0, 3, 0), (-1, 0, 0))].

End Examples.

(** * Properties *)

(** ** Vector arithmetic *)

Section NumpyFacts.
Import np.

Lemma sum_sq_nonneg (v : list R) : 0 <= sum_sq v.
Proof.
  unfold sum_sq, sum. induction v as [|x v IH]; simpl; [lra|].
  pose proof (Rle_0_sqr x) as Hx. unfold Rsqr in Hx. lra.
Qed.

Lemma norm_nonneg (v : list R) : 0 <= norm v.
Proof. apply sqrt_pos. Qed.

Lemma replace_zeros_nonzero (norms : list R) :
  Forall (fun n => n <> 0) (replace_zeros norms).
Proof.
  unfold replace_zeros. apply Forall_forall. intros n Hin.
  apply in_map_iff in Hin. destruct Hin as [m [Hm _]].
  destruct (Req_dec_T m 0); subst; lra.
Qed.

Lemma div_row_1 (v : list R) : div_row v 1 = v.
Proof.
  unfold div_row. induction v as [|x v IH]; simpl; [reflexivity|].
  rewrite IH. f_equal. field.
Qed.

Lemma div_row_length (v : list R) (n : R) : length (div_row v n) = length v.
Proof. unfold div_row. apply length_map. Qed.

Lemma sum_sq_div_row (v : list R) (n : R) :
  n <> 0 -> sum_sq (div_row v n) = sum_sq v / (n * n).
Proof.
  intros Hn. unfold sum_sq, sum, div_row.
  induction v as [|x v IH]; simpl; [field; assumption|].
  rewrite IH. field. assumption.
Qed.

Lemma norm_sqr (v : list R) : norm v * norm v = sum_sq v.
Proof. unfold norm. apply sqrt_sqrt, sum_sq_nonneg. Qed.

(** Dividing a vector by its non-zero norm gives a unit vector. *)
Lemma norm_div_row_norm (v : list R) :
  norm v <> 0 -> norm (div_row v (norm v)) = 1.
Proof.
  intros Hn. unfold norm at 1.
  rewrite sum_sq_div_row by assumption.
  rewrite norm_sqr.
  assert (Hs : sum_sq v <> 0).
  { intros Hz. apply Hn. unfold norm. rewrite Hz. apply sqrt_0. }
  replace (sum_sq v / sum_sq v) with 1 by (field; assumption).
  apply sqrt_1.
Qed.

Lemma sum_sq_repeat_0 (n : nat) : sum_sq (repeat 0 n) = 0.
Proof.
  unfold sum_sq, sum. induction n as [|n IH]; simpl; [reflexivity|].
  rewrite IH. lra.
Qed.

Lemma norm_repeat_0 (n : nat) : norm (repeat 0 n) = 0.
Proof. unfold norm. rewrite sum_sq_repeat_0. apply sqrt_0. Qed.

Lemma normalize_rows_eq (rs : list (list R)) :
  map (fun rn => div_row (fst rn) (snd rn))
      (combine rs (replace_zeros (map norm rs)))
  = map normalized_row rs.
Proof.
  unfold replace_zeros.
  induction rs as [|r rs IH]; simpl; [reflexivity|].
  rewrite IH. f_equal.
  unfold normalized_row. destruct (Req_dec_T (norm r) 0).
  - apply div_row_1.
  - reflexivity.
Qed.

Lemma normalize_vectors_rows (a : ndarray) :
  rows (SimilaritySearch._normalize_vectors a) = map normalized_row (rows a).
Proof.
  unfold SimilaritySearch._normalize_vectors, div_rows, norm_axis1. simpl.
  apply normalize_rows_eq.
Qed.

Lemma normalize_vectors_shape1 (a : ndarray) :
  shape1 (SimilaritySearch._normalize_vectors a) = shape1 a.
Proof. reflexivity. Qed.

Lemma normalized_row_length (r : list R) : length (normalized_row r) = length r.
Proof.
  unfold normalized_row. destruct (Req_dec_T _ _); [reflexivity|apply div_row_length].
Qed.

Lemma normalized_row_unit (r : list R) : norm r = 1 -> normalized_row r = r.
Proof.
  intros H. unfold normalized_row. rewrite H.
  destruct (Req_dec_T 1 0); [lra|apply div_row_1].
Qed.

End NumpyFacts.

(** ** The similarity index *)

Section IndexFacts.
Import SimilaritySearch.

(** C10: [_normalize_vectors] never divides by zero: every divisor it uses
    is non-zero (a zero norm having been replaced by 1); a row of norm 0
    comes back unchanged and any other row comes back divided by its norm,
    the shape being kept; and [add_vectors] accepts the all-zeros vector,
    storing it as the zero vector. *)
Theorem normalize_vectors_guarded (vectors : np.ndarray) (self : t) (id : Z)
  (Hd : faiss.d (index self) = dimension self) :
  Forall (fun n => n <> 0) (np.replace_zeros (np.norm_axis1 vectors))
  /\ np.shape1 (_normalize_vectors vectors) = np.shape1 vectors
  /\ np.rows (_normalize_vectors vectors)
     = map (fun row => if Req_dec_T (np.norm row) 0
                       then row else np.div_row row (np.norm row))
           (np.rows vectors)
  /\ add_vectors (np.array_of_row (repeat 0 (dimension self))) [id] self
     = (Returns tt,
        {| dimension := dimension self;
           index := {| faiss.d := faiss.d (index self);
                       faiss.xb := faiss.xb (index self)
                                   ++ [repeat 0 (dimension self)] |};
           model_ids := model_ids self ++ [id] |}).
Proof.
  split; [apply replace_zeros_nonzero|].
  split; [reflexivity|].
  split; [apply normalize_vectors_rows|].
  unfold add_vectors. run_py.
  rewrite repeat_length, Nat.eqb_refl. simpl.
  unfold faiss.add. rewrite normalize_vectors_shape1. simpl.
  rewrite repeat_length, Hd, Nat.eqb_refl.
  rewrite norm_repeat_0.
  destruct (Req_dec_T 0 0) as [_|Hne]; [|contradiction].
  rewrite div_row_1. reflexivity.
Qed.

Lemma normalize_vectors_guarded_witness :
  faiss.ntotal (index (snd (add_vectors (np.array_of_row [0; 0; 0]) [7%Z] (__init__ 3)))) = 1%nat.
Proof.
  pose proof (normalize_vectors_guarded (np.array_of_row [1; 2; 2]) (__init__ 3) 7%Z
                eq_refl) as [_ [_ [_ H]]].
  simpl in H. rewrite H. reflexivity.
Defined.

(** C7: inserting vectors whose width differs from the index dimension
    raises the dimension [ValueError] and leaves the whole object (dimension,
    vector store, identifier list, hence the entry count) as it was. *)
Theorem add_vectors_wrong_dimension (self : t) (vectors : np.ndarray) (ids : list Z) :
  np.shape1 vectors <> dimension self ->
  add_vectors vectors ids self = (Raises ValueError, self).
Proof.
  intros Hne. unfold add_vectors. run_py.
  apply Nat.eqb_neq in Hne. rewrite Hne. reflexivity.
Qed.

Lemma add_vectors_wrong_dimension_witness :
  add_vectors (np.array_of_row [1; 0]) [1%Z] (__init__ 83)
  = (Raises ValueError, __init__ 83).
Proof.
  apply add_vectors_wrong_dimension. simpl. lia.
Defined.

End IndexFacts.

(** ** Nearest-neighbour search *)

Section SearchFacts.
Import faiss.

Lemma In_firstn {A} (n : nat) (l : list A) (x : A) :
  In x (firstn n l) -> In x l.
Proof.
  revert n. induction l as [|a l IH]; intros [|n]; simpl; try contradiction.
  intros [H|H]; [now left|right; eauto].
Qed.

Lemma insert_hit_length (h : R * nat) (l : list (R * nat)) :
  length (insert_hit h l) = S (length l).
Proof.
  induction l as [|h' t IH]; simpl; [reflexivity|].
  destruct (Rle_dec (fst h) (fst h')); simpl; [reflexivity|].
  now rewrite IH.
Qed.

Lemma sort_hits_length (l : list (R * nat)) : length (sort_hits l) = length l.
Proof.
  induction l as [|h t IH]; simpl; [reflexivity|].
  unfold sort_hits in *. rewrite insert_hit_length. now rewrite IH.
Qed.

Lemma insert_hit_In (h x : R * nat) (l : list (R * nat)) :
  In x (insert_hit h l) <-> x = h \/ In x l.
Proof.
  induction l as [|h' t IH]; simpl.
  - intuition.
  - destruct (Rle_dec (fst h) (fst h')); simpl; [intuition|].
    rewrite IH. intuition.
Qed.

Lemma sort_hits_In (x : R * nat) (l : list (R * nat)) : In x (sort_hits l) <-> In x l.
Proof.
  induction l as [|h t IH]; simpl; [reflexivity|].
  unfold sort_hits in *. rewrite insert_hit_In, IH. intuition.
Qed.

Lemma insert_hit_sorted (h : R * nat) (l : list (R * nat)) :
  StronglySorted closer l -> StronglySorted closer (insert_hit h l).
Proof.
  induction 1 as [|h' t Ht IH Hall]; simpl.
  - repeat constructor.
  - destruct (Rle_dec (fst h) (fst h')) as [Hle|Hgt].
    + constructor; [constructor; assumption|].
      constructor; [exact Hle|].
      rewrite Forall_forall in *. intros x Hx. specialize (Hall x Hx).
      unfold closer in *. lra.
    + constructor; [exact IH|].
      rewrite Forall_forall in *. intros x Hx.
      apply -> insert_hit_In in Hx. destruct Hx as [->|Hx]; [|auto].
      unfold closer. lra.
Qed.

Lemma sort_hits_sorted (l : list (R * nat)) : StronglySorted closer (sort_hits l).
Proof.
  induction l as [|h t IH]; simpl; [constructor|].
  apply insert_hit_sorted, IH.
Qed.

Lemma firstn_sorted {A} (P : A -> A -> Prop) (n : nat) (l : list A) :
  StronglySorted P l -> StronglySorted P (firstn n l).
Proof.
  intros H. revert n. induction H as [|a l Hl IH Hall]; intros [|n]; simpl;
    try constructor.
  - apply IH.
  - rewrite Forall_forall in *. intros x Hx. apply Hall.
    eapply In_firstn; eauto.
Qed.

Lemma fvec_L2sqr_nonneg (x y : list R) : 0 <= fvec_L2sqr x y.
Proof. apply sum_sq_nonneg. Qed.

Lemma In_combine_seq {A} (l : list A) (a : A) (i s : nat) :
  In (a, i) (combine l (seq s (length l))) ->
  (s <= i < s + length l)%nat /\ In a l.
Proof.
  revert s. induction l as [|b l IH]; simpl; intros s H; [contradiction|].
  destruct H as [H|H].
  - inversion H; subst. split; [lia|now left].
  - apply IH in H. destruct H. split; [lia|now right].
Qed.

(** Every candidate of [knn] has a non-negative distance and a label of a
    stored vector; the candidates come closest first. *)
Lemma knn_spec (idx : IndexFlatL2) (q : list R) (k : nat) :
  length (knn idx q k) = Nat.min k (ntotal idx)
  /\ StronglySorted closer (knn idx q k)
  /\ Forall (fun h => 0 <= fst h /\ (snd h < ntotal idx)%nat) (knn idx q k).
Proof.
  unfold knn. set (dists := map (fvec_L2sqr q) (xb idx)).
  assert (Hlen : length dists = ntotal idx) by (unfold dists; apply length_map).
  split; [|split].
  - rewrite length_firstn, sort_hits_length, length_combine, length_seq, Hlen.
    lia.
  - apply firstn_sorted, sort_hits_sorted.
  - apply Forall_forall. intros [dist lbl] Hin.
    apply In_firstn in Hin. apply -> sort_hits_In in Hin.
    rewrite <- Hlen in Hin. apply In_combine_seq in Hin.
    destruct Hin as [Hr Hd]. simpl. split.
    + unfold dists in Hd. apply in_map_iff in Hd. destruct Hd as [v [<- _]].
      apply fvec_L2sqr_nonneg.
    + rewrite <- Hlen. lia.
Qed.

End SearchFacts.

Section SearchTheorems.
Import SimilaritySearch.

Lemma similarity_range (x : R) : 0 <= similarity x <= 1.
Proof.
  unfold similarity, Rmax. pose proof (Rle_0_sqr x) as Hx. unfold Rsqr in Hx.
  destruct (Rle_dec 0 (1 - x * x / 4)); lra.
Qed.

Lemma similarity_antitone (x y : R) :
  0 <= x -> x <= y -> similarity y <= similarity x.
Proof.
  intros Hx Hxy. unfold similarity.
  assert (Hsq : x * x <= y * y) by nra.
  apply Rmax_lub.
  - apply Rmax_l.
  - eapply Rle_trans; [|apply Rmax_r]. lra.
Qed.

Lemma model_id_at_state (self s : t) (i : nat) : snd (model_id_at self i s) = s.
Proof. unfold model_id_at. destruct (nth_error _ _); reflexivity. Qed.

Lemma mapM_model_id_at_state (self s : t) (labels : list nat) :
  snd (mapM (model_id_at self) labels s) = s.
Proof.
  induction labels as [|i labels IH]; simpl; [reflexivity|].
  unfold bind. pose proof (model_id_at_state self s i) as Hi.
  destruct (model_id_at self i s) as [[id|e] s1]; simpl in Hi; subst s1;
    [|reflexivity].
  destruct (mapM (model_id_at self) labels s) as [[ids|e] s2]; simpl in *;
    subst; reflexivity.
Qed.

Lemma mapM_model_id_at_length (self s s' : t) (labels : list nat) (ids : list Z) :
  mapM (model_id_at self) labels s = (Returns ids, s') ->
  length ids = length labels.
Proof.
  revert ids. induction labels as [|i labels IH]; simpl; intros ids H.
  - inversion H. reflexivity.
  - unfold bind in H. pose proof (model_id_at_state self s i) as Hi.
    destruct (model_id_at self i s) as [[id|e] s1]; simpl in Hi; subst s1;
      [|discriminate].
    destruct (mapM (model_id_at self) labels s) as [[ids'|e] s2];
      [|discriminate].
    inversion H; subst. simpl. f_equal. now apply IH.
Qed.

Lemma mapM_model_id_at_returns (self s : t) (labels : list nat) :
  Forall (fun i => (i < length (model_ids self))%nat) labels ->
  exists ids, mapM (model_id_at self) labels s = (Returns ids, s).
Proof.
  induction 1 as [|i labels Hi _ [ids IH]]; simpl.
  - exists []. reflexivity.
  - unfold bind. unfold model_id_at at 1.
    destruct (nth_error (model_ids self) i) as [id|] eqn:Hn.
    + unfold ret at 1. rewrite IH. eexists. reflexivity.
    + apply nth_error_None in Hn. lia.
Qed.

Lemma sims_descending (hits : list (R * nat)) :
  StronglySorted faiss.closer hits ->
  Forall (fun h => 0 <= fst h) hits ->
  StronglySorted Rge (map similarity (map fst hits)).
Proof.
  induction 1 as [|h hits Hs IH Hall]; intros Hpos; simpl; [constructor|].
  inversion Hpos as [|? ? Hh Hrest]; subst.
  constructor; [apply IH, Hrest|].
  rewrite Forall_forall in *. intros s Hin.
  apply in_map_iff in Hin. destruct Hin as [x [<- Hin]].
  apply in_map_iff in Hin. destruct Hin as [h' [<- Hin]].
  apply Rle_ge, similarity_antitone; [exact Hh|apply (Hall h' Hin)].
Qed.

(** What [search] computes once its guards are passed. *)
Lemma search_eq (self : t) (q : list R) (k : Z) :
  length q = dimension self ->
  faiss.d (index self) = dimension self ->
  (0 < k)%Z ->
  (0 < faiss.ntotal (index self))%nat ->
  search q k self =
  let hits := faiss.knn (index self) (np.normalized_row q)
                (Z.to_nat (Z.min k (Z.of_nat (faiss.ntotal (index self))))) in
  match mapM (model_id_at self) (map snd hits) self with
  | (Returns ids, s) => (Returns (ids, map similarity (map fst hits)), s)
  | (Raises e, s) => (Raises e, s)
  end.
Proof.
  intros Hq Hd Hk Hn. unfold search. run_py.
  rewrite Hq, Nat.eqb_refl. simpl.
  unfold faiss.search. simpl. rewrite Hq, Hd, Nat.eqb_refl. simpl.
  assert (Hk' : (Z.min k (Z.of_nat (faiss.ntotal (index self))) <=? 0)%Z = false)
    by (apply Z.leb_gt; lia).
  rewrite Hk'. simpl.
  assert (E : np.div_row q (if Req_dec_T (np.norm q) 0 then 1 else np.norm q)
              = np.normalized_row q).
  { unfold np.normalized_row. destruct (Req_dec_T (np.norm q) 0);
      [now rewrite div_row_1|reflexivity]. }
  cbv beta. rewrite E.
  destruct (mapM _ _ self) as [[ids|e] s]; reflexivity.
Qed.

Lemma search_guards (self s' : t) (q : list R) (k : Z) (r : list Z * list R) :
  search q k self = (Returns r, s') ->
  length q = dimension self /\ faiss.d (index self) = dimension self
  /\ (0 < k)%Z /\ (0 < faiss.ntotal (index self))%nat.
Proof.
  unfold search. run_py.
  destruct (Nat.eqb (length q) (dimension self)) eqn:Hq; simpl; [|discriminate].
  apply Nat.eqb_eq in Hq. unfold faiss.search. simpl.
  destruct (Nat.eqb (length q) (faiss.d (index self))) eqn:Hd; simpl;
    [|discriminate].
  apply Nat.eqb_eq in Hd.
  destruct (Z.leb_spec (Z.min k (Z.of_nat (faiss.ntotal (index self)))) 0);
    simpl; [discriminate|].
  intros _. repeat split; [assumption|congruence|lia|lia].
Qed.

Lemma search_returns_bounds (self self' : t) (q : list R) (k : Z)
  (ids : list Z) (sims : list R) :
  search q k self = (Returns (ids, sims), self') ->
  self' = self
  /\ length ids = length sims
  /\ (Z.of_nat (length sims)
      <= Z.min k (Z.of_nat (faiss.ntotal (index self))))%Z
  /\ StronglySorted Rge sims
  /\ Forall (fun s => 0 <= s <= 1) sims.
Proof.
  intros H.
  destruct (search_guards _ _ _ _ _ H) as [Hq [Hd [Hk Hn]]].
  rewrite (search_eq self q k Hq Hd Hk Hn) in H. cbv zeta in H.
  set (n := Z.to_nat (Z.min k (Z.of_nat (faiss.ntotal (index self))))) in *.
  destruct (knn_spec (index self) (np.normalized_row q) n) as [Hlen [Hsort Hall]].
  set (hits := faiss.knn (index self) (np.normalized_row q) n) in *.
  pose proof (mapM_model_id_at_state self self (map snd hits)) as Hst.
  destruct (mapM (model_id_at self) (map snd hits) self) as [[ids'|e] s] eqn:Hm;
    [|discriminate].
  simpl in Hst. inversion H; subst.
  apply mapM_model_id_at_length in Hm.
  split; [reflexivity|]. split; [now rewrite Hm, !length_map|].
  split; [rewrite !length_map, Hlen; unfold n; lia|].
  split.
  - apply sims_descending; [exact Hsort|].
    eapply Forall_impl; [|exact Hall]. simpl. tauto.
  - apply Forall_forall. intros x Hx.
    apply in_map_iff in Hx. destruct Hx as [y [<- _]]. apply similarity_range.
Qed.

Lemma search_returns (self : t) (q : list R) (k : Z) :
  length q = dimension self ->
  faiss.d (index self) = dimension self ->
  coindexed self ->
  (0 < k)%Z ->
  (0 < faiss.ntotal (index self))%nat ->
  exists ids sims, search q k self = (Returns (ids, sims), self).
Proof.
  intros Hq Hd Hinv Hk Hn.
  rewrite (search_eq self q k Hq Hd Hk Hn). cbv zeta.
  set (n := Z.to_nat (Z.min k (Z.of_nat (faiss.ntotal (index self))))).
  destruct (knn_spec (index self) (np.normalized_row q) n) as [_ [_ Hall]].
  set (hits := faiss.knn (index self) (np.normalized_row q) n) in *.
  destruct (mapM_model_id_at_returns self self (map snd hits)) as [ids Hids].
  - apply Forall_forall. intros i Hi. apply in_map_iff in Hi.
    destruct Hi as [h [<- Hh]]. rewrite Forall_forall in Hall.
    unfold coindexed in Hinv. rewrite Hinv. apply (Hall h Hh).
  - rewrite Hids. eauto.
Qed.

(** C5: whenever [search] returns, the object is unchanged, it returns as
    many identifiers as scores, at most [min(k, ntotal)] of them, the scores
    descend, and each score lies in [[0, 1]]; and it does return when the
    query has the index dimension, [k] is positive, the index is not empty
    and every stored vector has its identifier. *)
Theorem search_bounded_sorted (self : t) (q : list R) (k : Z) :
  (forall ids sims self',
      search q k self = (Returns (ids, sims), self') ->
      self' = self
      /\ length ids = length sims
      /\ (Z.of_nat (length sims)
          <= Z.min k (Z.of_nat (faiss.ntotal (index self))))%Z
      /\ StronglySorted Rge sims
      /\ Forall (fun s => 0 <= s <= 1) sims)
  /\ (length q = dimension self ->
      faiss.d (index self) = dimension self ->
      coindexed self ->
      (0 < k)%Z ->
      (0 < faiss.ntotal (index self))%nat ->
      exists ids sims, search q k self = (Returns (ids, sims), self)).
Proof.
  split.
  - intros ids sims self' H. eapply search_returns_bounds; eauto.
  - apply search_returns.
Qed.

Lemma search_bounded_sorted_witness :
  exists ids sims,
    search Examples.e1 5 Examples.one_entry = (Returns (ids, sims), Examples.one_entry)
    /\ (Z.of_nat (length sims) <= 1)%Z
    /\ StronglySorted Rge sims.
Proof.
  destruct (search_bounded_sorted Examples.one_entry Examples.e1 5) as [Hb Hr].
  destruct Hr as [ids [sims Hs]];
    [reflexivity|reflexivity|reflexivity|lia|apply Nat.lt_0_1|].
  exists ids, sims. split; [exact Hs|].
  destruct (Hb ids sims _ Hs) as [_ [_ [Hle [Hsorted _]]]].
  split; [|exact Hsorted]. simpl in Hle. lia.
Defined.

End SearchTheorems.

(** ** The three-vector scenario *)

Section Scenario.
Import SimilaritySearch.

Lemma add_vectors_eq (self : t) (vectors : np.ndarray) (ids : list Z) :
  np.shape1 vectors = dimension self ->
  faiss.d (index self) = dimension self ->
  add_vectors vectors ids self
  = (Returns tt,
     {| dimension := dimension self;
        index := {| faiss.d := faiss.d (index self);
                    faiss.xb := faiss.xb (index self)
                                ++ map np.normalized_row (np.rows vectors) |};
        model_ids := model_ids self ++ ids |}).
Proof.
  intros Hs Hd. unfold add_vectors. run_py.
  rewrite Hs, Nat.eqb_refl. simpl.
  unfold faiss.add. rewrite normalize_vectors_shape1, Hs, Hd, Nat.eqb_refl.
  rewrite normalize_vectors_rows. unfold set_model_ids, set_index. simpl.
  reflexivity.
Qed.

Lemma fvec_L2sqr_expand (u w : list R) :
  length u = length w ->
  faiss.fvec_L2sqr u w = np.sum_sq u + np.sum_sq w - 2 * np.dot u w.
Proof.
  unfold faiss.fvec_L2sqr, np.sum_sq, np.dot, np.sum.
  revert w. induction u as [|x u IH]; intros [|y w] Hlen; simpl in *;
    try discriminate; [lra|].
  rewrite IH by lia. lra.
Qed.

Lemma fvec_L2sqr_self (u : list R) : faiss.fvec_L2sqr u u = 0.
Proof.
  unfold faiss.fvec_L2sqr, np.sum_sq, np.sum.
  induction u as [|x u IH]; simpl; [reflexivity|]. rewrite IH. lra.
Qed.

Lemma norm_of_unit (u : list R) : np.sum_sq u = 1 -> np.norm u = 1.
Proof. intros H. unfold np.norm. rewrite H. apply sqrt_1. Qed.

Lemma similarity_0 : similarity 0 = 1.
Proof. unfold similarity. replace (1 - 0 * 0 / 4) with 1 by lra. apply Rmax_right. lra. Qed.

Lemma similarity_2 : similarity 2 = 0.
Proof. unfold similarity. replace (1 - 2 * 2 / 4) with 0 by lra. apply Rmax_left. lra. Qed.

(** The index after [add_vectors([u],[1])], [add_vectors([u],[2])],
    [add_vectors([w],[3])] on a fresh [SimilaritySearch(D)]. *)
Lemma three_inserts (D : nat) (u w : list R) :
  length u = D -> length w = D -> np.sum_sq u = 1 -> np.sum_sq w = 1 ->
  (add_vectors (np.array_of_row u) [1%Z] ;;;
   add_vectors (np.array_of_row u) [2%Z] ;;;
   add_vectors (np.array_of_row w) [3%Z])%py (__init__ D)
  = (Returns tt,
     {| dimension := D;
        index := {| faiss.d := D; faiss.xb := [u; u; w] |};
        model_ids := [1%Z; 2%Z; 3%Z] |}).
Proof.
  intros Hu Hw Nu Nw. unfold bind.
  rewrite add_vectors_eq by (simpl; congruence). simpl.
  rewrite add_vectors_eq by (simpl; congruence). simpl.
  rewrite add_vectors_eq by (simpl; congruence). simpl.
  rewrite !normalized_row_unit by (apply norm_of_unit; assumption).
  reflexivity.
Qed.

(** C1, evaluated on the code: with two identical unit vectors stored under
    1 and 2 and a unit vector orthogonal to them under 3, [search] for the
    first vector with [k = 3] returns the identifiers [1, 2, 3] in this
    order with the scores [1, 1, 0]: faiss hands back the squared distances
    [0, 0, 2] and the code squares them once more, so the third score is
    [max(0, 1 - 2*2/4) = 0] where [1 - d^2/4] of the specification is
    [1/2]. *)
Theorem search_three_vectors (D : nat) (u w : list R) :
  length u = D -> length w = D ->
  np.sum_sq u = 1 -> np.sum_sq w = 1 -> np.dot u w = 0 ->
  let s := {| dimension := D;
              index := {| faiss.d := D; faiss.xb := [u; u; w] |};
              model_ids := [1%Z; 2%Z; 3%Z] |} in
  (add_vectors (np.array_of_row u) [1%Z] ;;;
   add_vectors (np.array_of_row u) [2%Z] ;;;
   add_vectors (np.array_of_row w) [3%Z])%py (__init__ D) = (Returns tt, s)
  /\ map (faiss.fvec_L2sqr u) (faiss.xb (index s)) = [0; 0; 2]
  /\ search u 3 s = (Returns ([1%Z; 2%Z; 3%Z], [1; 1; 0]), s).
Proof.
  intros Hu Hw Nu Nw Huw s.
  assert (Hd : map (faiss.fvec_L2sqr u) (faiss.xb (index s)) = [0; 0; 2]).
  { simpl. rewrite fvec_L2sqr_self, fvec_L2sqr_expand by congruence.
    rewrite Nu, Nw, Huw. repeat f_equal. lra. }
  split; [now apply three_inserts|]. split; [exact Hd|].
  rewrite search_eq;
    [|exact Hu|reflexivity|lia|unfold s, faiss.ntotal; simpl; lia].
  rewrite normalized_row_unit by (apply norm_of_unit; assumption).
  unfold faiss.knn. rewrite Hd. simpl.
  repeat (match goal with
          | |- context [Rle_dec ?a ?b] => destruct (Rle_dec a b); [|lra]
          end; simpl).
  run_py.
  rewrite similarity_0, similarity_2. reflexivity.
Qed.

Lemma search_three_vectors_witness :
  search [1; 0; 0] 3
    {| dimension := 3;
       index := {| faiss.d := 3; faiss.xb := [[1; 0; 0]; [1; 0; 0]; [0; 1; 0]] |};
       model_ids := [1%Z; 2%Z; 3%Z] |}
  = (Returns ([1%Z; 2%Z; 3%Z], [1; 1; 0]),
     {| dimension := 3;
        index := {| faiss.d := 3; faiss.xb := [[1; 0; 0]; [1; 0; 0]; [0; 1; 0]] |};
        model_ids := [1%Z; 2%Z; 3%Z] |}).
Proof.
  apply (search_three_vectors 3 [1; 0; 0] [0; 1; 0]);
    try reflexivity; unfold np.sum_sq, np.dot, np.sum; simpl; lra.
Defined.

End Scenario.

(** ** The co-indexing invariant *)

Section Invariant.
Import SimilaritySearch storage.

Lemma combine_append {A B} (l1 l2 : list A) (r1 r2 : list B) :
  length l1 = length r1 ->
  combine (l1 ++ l2) (r1 ++ r2) = combine l1 r1 ++ combine l2 r2.
Proof.
  revert r1. induction l1 as [|a l1 IH]; intros [|b r1] H; simpl in *;
    try discriminate; [reflexivity|].
  f_equal. apply IH. lia.
Qed.

Lemma init_coindexed (D : nat) : coindexed (__init__ D).
Proof. reflexivity. Qed.

Lemma add_vectors_cases (self : t) (vectors : np.ndarray) (ids : list Z) :
  (exists e, add_vectors vectors ids self = (Raises e, self))
  \/ add_vectors vectors ids self
     = (Returns tt,
        {| dimension := dimension self;
           index := {| faiss.d := faiss.d (index self);
                       faiss.xb := faiss.xb (index self)
                                   ++ map np.normalized_row (np.rows vectors) |};
           model_ids := model_ids self ++ ids |}).
Proof.
  destruct (Nat.eq_dec (np.shape1 vectors) (dimension self)) as [Hs|Hs].
  - destruct (Nat.eq_dec (faiss.d (index self)) (dimension self)) as [Hd|Hd].
    + right. now apply add_vectors_eq.
    + left. exists AssertionError. unfold add_vectors. run_py.
      rewrite Hs, Nat.eqb_refl. simpl. unfold faiss.add.
      rewrite normalize_vectors_shape1, Hs.
      assert (H : Nat.eqb (dimension self) (faiss.d (index self)) = false)
        by (apply Nat.eqb_neq; congruence).
      rewrite H. reflexivity.
  - left. exists ValueError. unfold add_vectors. run_py.
    apply Nat.eqb_neq in Hs. rewrite Hs. reflexivity.
Qed.

Lemma add_vectors_coindexed (self : t) (vectors : np.ndarray) (ids : list Z) :
  coindexed self -> length ids = length (np.rows vectors) ->
  coindexed (snd (add_vectors vectors ids self)).
Proof.
  intros Hinv Hlen.
  destruct (add_vectors_cases self vectors ids) as [[e H]|H]; rewrite H; simpl;
    [exact Hinv|].
  unfold coindexed, faiss.ntotal in *. simpl.
  rewrite !length_app, length_map. lia.
Qed.

Lemma add_vectors_entries (self s' : t) (vectors : np.ndarray) (ids : list Z) :
  coindexed self ->
  add_vectors vectors ids self = (Returns tt, s') ->
  entries s' = entries self ++ combine ids (map np.normalized_row (np.rows vectors)).
Proof.
  intros Hinv H.
  destruct (add_vectors_cases self vectors ids) as [[e H']|H']; rewrite H' in H;
    [discriminate|].
  inversion H; subst. unfold entries. simpl.
  apply combine_append. exact Hinv.
Qed.

Lemma search_state (self : t) (q : list R) (k : Z) : snd (search q k self) = self.
Proof.
  unfold search. run_py.
  destruct (Nat.eqb (length q) (dimension self)); simpl; [|reflexivity].
  destruct (faiss.search _ _ _) as [[distances indices]|e]; simpl; [|reflexivity].
  pose proof (mapM_model_id_at_state self self (hd [] indices)) as Hs.
  destruct (mapM _ _ self) as [[ids|e] s]; simpl in *; congruence.
Qed.

Lemma rebuild_index_coindexed (self : t) (vectors : np.ndarray) (ids : list Z) :
  length ids = length (np.rows vectors) ->
  coindexed (snd (rebuild_index vectors ids self)).
Proof.
  intros Hlen. unfold rebuild_index, _initialize_index. run_py.
  apply (add_vectors_coindexed
           (set_model_ids (set_index self (faiss.new (dimension self))) [])
           vectors ids); [reflexivity|exact Hlen].
Qed.

(** [save] writes the object as it is. *)
Lemma save_writes (self : t) (fs : disk) :
  writable fs = true ->
  SimilaritySearch.save self fs
  = (Returns tt,
     {| index_file := Stored (index self);
        metadata_file := Stored {| md_model_ids := model_ids self;
                                   md_dimension := dimension self |};
        writable := true |}).
Proof.
  intros Hw. unfold SimilaritySearch.save. run_py. rewrite Hw. reflexivity.
Qed.

Lemma load_missing (self : t) (fs : disk) :
  index_file fs = Missing \/ metadata_file fs = Missing ->
  SimilaritySearch.load fs self = (Returns tt, self).
Proof.
  unfold SimilaritySearch.load.
  intros [H|H]; rewrite H; simpl; [reflexivity|].
  rewrite orb_true_r. reflexivity.
Qed.

Lemma load_stored (self : t) (fs : disk) (i : faiss.IndexFlatL2) (md : metadata) :
  index_file fs = Stored i -> metadata_file fs = Stored md ->
  SimilaritySearch.load fs self
  = (Returns tt,
     {| dimension := md_dimension md; index := i; model_ids := md_model_ids md |}).
Proof.
  intros Hi Hm. unfold SimilaritySearch.load. rewrite Hi, Hm. reflexivity.
Qed.

End Invariant.

Section InvariantTheorems.
Import SimilaritySearch storage.

Lemma save_index_engine (m : IndexManager.t) :
  IndexManager.search_engine (snd (IndexManager._save_index m))
  = IndexManager.search_engine m.
Proof.
  unfold IndexManager._save_index, IndexManager.on_disk. run_py.
  destruct (IndexManager.search_engine m) as [e|] eqn:He; simpl; [|exact He].
  destruct (SimilaritySearch.save e (IndexManager.fs m)) as [[u|x] d'];
    simpl; exact He.
Qed.

(** C8, as the code has it: a fresh index is co-indexed; [add_vectors] and
    [rebuild_index] given as many identifiers as rows keep or establish
    co-indexing, the new identifiers and rows being appended in step;
    [search] and the manager's save leave the object alone; a save writes
    as many identifiers as vectors; and [load] keeps co-indexing when a file
    is missing or when both files are readable and hold equally many
    identifiers and vectors. *)
Theorem coindexed_preserved :
  (forall D, coindexed (__init__ D))
  /\ (forall self vectors ids,
        coindexed self -> length ids = length (np.rows vectors) ->
        coindexed (snd (add_vectors vectors ids self)))
  /\ (forall self s' vectors ids,
        coindexed self -> add_vectors vectors ids self = (Returns tt, s') ->
        entries s'
        = entries self ++ combine ids (map np.normalized_row (np.rows vectors)))
  /\ (forall self q k, snd (search q k self) = self)
  /\ (forall self vectors ids,
        length ids = length (np.rows vectors) ->
        coindexed (snd (rebuild_index vectors ids self)))
  /\ (forall m, IndexManager.search_engine (snd (IndexManager._save_index m))
                = IndexManager.search_engine m)
  /\ (forall self fs,
        coindexed self -> writable fs = true ->
        exists i md,
          snd (SimilaritySearch.save self fs)
          = {| index_file := Stored i; metadata_file := Stored md; writable := true |}
          /\ length (md_model_ids md) = faiss.ntotal i)
  /\ (forall self fs,
        coindexed self ->
        (index_file fs = Missing \/ metadata_file fs = Missing
         \/ exists i md, index_file fs = Stored i /\ metadata_file fs = Stored md
                         /\ length (md_model_ids md) = faiss.ntotal i) ->
        fst (SimilaritySearch.load fs self) = Returns tt
        /\ coindexed (snd (SimilaritySearch.load fs self))).
Proof.
  split; [exact init_coindexed|].
  split; [exact add_vectors_coindexed|].
  split; [exact add_vectors_entries|].
  split; [exact search_state|].
  split; [exact rebuild_index_coindexed|].
  split; [exact save_index_engine|].
  split.
  - intros self fs Hinv Hw. rewrite (save_writes self fs Hw). simpl.
    eexists _, _. split; [reflexivity|exact Hinv].
  - intros self fs Hinv [H|[H|[i [md [Hi [Hm Hlen]]]]]].
    + rewrite load_missing by (now left). now split.
    + rewrite load_missing by (now right). now split.
    + rewrite (load_stored self fs i md Hi Hm). split; [reflexivity|exact Hlen].
Qed.

Lemma coindexed_preserved_witness :
  coindexed (snd (add_vectors (np.array_of_row [3; 4]) [5%Z] (__init__ 2)))
  /\ coindexed (snd (SimilaritySearch.load Examples.no_files Examples.one_entry)).
Proof.
  destruct coindexed_preserved as [H0 [Hadd [_ [_ [_ [_ [_ Hload]]]]]]].
  split.
  - apply Hadd; [apply H0|reflexivity].
  - apply Hload; [reflexivity|left; reflexivity].
Defined.

(** C8 as stated fails at [load]: from a co-indexed (empty) index, reading
    two readable files that hold one vector and no identifier gives an index
    with one vector and no identifier. *)
Lemma load_breaks_coindexing :
  ~ (forall self fs, coindexed self ->
                     coindexed (snd (SimilaritySearch.load fs self))).
Proof.
  intros H. specialize (H (__init__ 83) Examples.mismatched_files eq_refl).
  unfold coindexed in H. simpl in H. discriminate.
Qed.

End InvariantTheorems.

(** ** The manager: start-up and rebuild *)

Section ManagerFacts.
Import storage.

Lemma initialize_eq (fs0 : disk) :
  IndexManager.initialize (IndexManager.__init__ fs0)
  = (Returns tt,
     {| IndexManager.search_engine :=
          Some (snd (SimilaritySearch.load fs0 (SimilaritySearch.__init__ 83)));
        IndexManager._ready := true;
        IndexManager.fs := fs0 |}).
Proof.
  unfold IndexManager.initialize, IndexManager.on_engine. run_py.
  destruct (SimilaritySearch.load fs0 (SimilaritySearch.__init__ 83))
    as [[u|e] s]; reflexivity.
Qed.

(** With a file missing the manager starts on the empty index. *)
Lemma initialize_missing (fs0 : disk) :
  index_file fs0 = Missing \/ metadata_file fs0 = Missing ->
  IndexManager.count (snd (IndexManager.initialize (IndexManager.__init__ fs0)))
  = 0%nat.
Proof.
  intros H. rewrite initialize_eq. unfold IndexManager.count. simpl.
  rewrite load_missing by exact H. reflexivity.
Qed.

(** With an unreadable index blob the manager starts on the empty index. *)
Lemma initialize_corrupt_index (fs0 : disk) :
  index_file fs0 = Corrupt ->
  IndexManager.count (snd (IndexManager.initialize (IndexManager.__init__ fs0)))
  = 0%nat.
Proof.
  intros H. rewrite initialize_eq. unfold IndexManager.count. simpl.
  unfold SimilaritySearch.load. rewrite H. simpl.
  destruct (metadata_file fs0); reflexivity.
Qed.

Lemma search_similar_eq (m : IndexManager.t) (e : SimilaritySearch.t)
  (q : list R) (k : Z) :
  IndexManager._ready m = true ->
  IndexManager.search_engine m = Some e ->
  IndexManager.search_similar q k m
  = match SimilaritySearch.search q k e with
    | (Returns (ids, sims), e') => (Returns (combine ids sims), IndexManager.set_engine m e')
    | (Raises x, e') => (Raises x, IndexManager.set_engine m e')
    end.
Proof.
  intros Hr He.
  unfold IndexManager.search_similar, IndexManager.on_engine, bind, get.
  rewrite Hr. cbn [negb]. rewrite He.
  destruct (SimilaritySearch.search q k e) as [[[ids sims]|x] e']; reflexivity.
Qed.

(** C9, evaluated on the code: with a readable index blob of one vector and
    a metadata file that does not unpickle, [load] raises after it has
    replaced [self.index]; [initialize] swallows the exception and reports
    ready, and the index it starts on holds one vector and no identifier:
    it is neither empty nor co-indexed, and a search on it raises. *)
Theorem initialize_corrupt_metadata :
  let fs0 := Examples.corrupt_metadata in
  fst (SimilaritySearch.load fs0 (SimilaritySearch.__init__ 83))
  = Raises UnpicklingError
  /\ IndexManager.initialize (IndexManager.__init__ fs0)
     = (Returns tt,
        {| IndexManager.search_engine :=
             Some {| SimilaritySearch.dimension := 83;
                     SimilaritySearch.index :=
                       {| faiss.d := 83; faiss.xb := [Examples.e1] |};
                     SimilaritySearch.model_ids := [] |};
           IndexManager._ready := true;
           IndexManager.fs := fs0 |})
  /\ IndexManager.count
       (snd (IndexManager.initialize (IndexManager.__init__ fs0))) = 1%nat
  /\ fst (IndexManager.search_similar Examples.e1 1
            (snd (IndexManager.initialize (IndexManager.__init__ fs0))))
     = Raises IndexError.
Proof.
  cbv zeta. split; [reflexivity|].
  split; [rewrite initialize_eq; reflexivity|].
  split; [rewrite initialize_eq; reflexivity|].
  rewrite initialize_eq.
  erewrite search_similar_eq; [|reflexivity|reflexivity].
  rewrite search_eq; [|reflexivity|reflexivity|lia|apply Nat.lt_0_1].
  reflexivity.
Qed.

Lemma filter_none {A} (f : A -> bool) (l : list A) :
  (forall x, In x l -> f x = false) -> filter f l = [].
Proof.
  induction l as [|a l IH]; simpl; intros H; [reflexivity|].
  rewrite (H a) by (now left). apply IH. intros x Hx. apply H. now right.
Qed.

Lemma rebuild_empty_catalog (m : IndexManager.t) (models : list IndexManager.Model3D) :
  IndexManager.empty_catalog models ->
  IndexManager.rebuild_index models m = (Returns tt, m).
Proof.
  intros Hempty. unfold IndexManager.rebuild_index.
  destruct models as [|m0 models]; [reflexivity|].
  assert (Hf : filter (fun x => IndexManager.truthy (IndexManager.feature_vector x))
                      (m0 :: models) = []).
  { apply filter_none. intros x Hx. apply (Hempty x Hx). }
  rewrite Hf. reflexivity.
Qed.

(** The manager's [add_model] hands the dimension error on and keeps the
    manager, its index and the disk as they were. *)
Lemma add_model_wrong_dimension (m : IndexManager.t) (e : SimilaritySearch.t)
  (model_id : Z) (fv : list R) :
  IndexManager._ready m = true ->
  IndexManager.search_engine m = Some e ->
  length fv <> SimilaritySearch.dimension e ->
  IndexManager.add_model model_id fv m = (Raises ValueError, m).
Proof.
  intros Hr He Hne.
  unfold IndexManager.add_model, IndexManager.on_engine, bind, get.
  rewrite Hr. cbn [negb]. rewrite He.
  unfold SimilaritySearch.add_vectors, bind, get, raise.
  cbn [np.shape1 np.array_of_row np.reshape_row].
  apply Nat.eqb_neq in Hne. rewrite Hne. cbn [negb].
  destruct m as [eng rdy d]. simpl in He. subst eng. reflexivity.
Qed.

End ManagerFacts.

Section RebuildTheorems.
Import storage.

Lemma search_similar_inv (m m' : IndexManager.t) (q : list R) (k : Z)
  (hits : list (Z * R)) :
  IndexManager.search_similar q k m = (Returns hits, m') ->
  exists e ids sims,
    IndexManager.search_engine m = Some e
    /\ SimilaritySearch.search q k e = (Returns (ids, sims), e)
    /\ hits = combine ids sims.
Proof.
  unfold IndexManager.search_similar, IndexManager.on_engine, bind, get.
  destruct (IndexManager._ready m); cbn [negb]; [|discriminate].
  destruct (IndexManager.search_engine m) as [e|]; [|discriminate].
  pose proof (search_state e q k) as Hst.
  destruct (SimilaritySearch.search q k e) as [[[ids sims]|x] e'] eqn:Hs;
    [|discriminate].
  simpl in Hst. subst e'. unfold ret. intros H. inversion H; subst.
  exists e, ids, sims. auto.
Qed.

Lemma search_similar_empty (m : IndexManager.t) (q : list R) (k : Z) :
  IndexManager.count m = 0%nat ->
  exists e, fst (IndexManager.search_similar q k m) = Raises e.
Proof.
  intros Hc.
  destruct (IndexManager.search_similar q k m) as [[hits|e] m'] eqn:H;
    [|exists e; reflexivity].
  destruct (search_similar_inv _ _ _ _ _ H) as [e [ids [sims [He [Hs _]]]]].
  destruct (search_guards _ _ _ _ _ Hs) as [_ [_ [_ Hn]]].
  unfold IndexManager.count in Hc. rewrite He in Hc. lia.
Qed.

(** C2, as the code has it: with a catalog snapshot that has no model, or
    no model carrying a feature vector, the manager's rebuild returns
    without touching the manager, so the entry count stays what it was; and
    on a manager whose count is 0 no search returns hits: [k] is clamped to
    0, which faiss rejects, so every search raises. *)
Theorem rebuild_empty_catalog_keeps_index (m : IndexManager.t)
  (models : list IndexManager.Model3D) :
  IndexManager.empty_catalog models ->
  IndexManager.rebuild_index models m = (Returns tt, m)
  /\ IndexManager.count (snd (IndexManager.rebuild_index models m))
     = IndexManager.count m
  /\ (IndexManager.count m = 0%nat ->
      forall q k, exists e, fst (IndexManager.search_similar q k m) = Raises e).
Proof.
  intros Hempty. pose proof (rebuild_empty_catalog m models Hempty) as Hr.
  split; [exact Hr|]. split; [now rewrite Hr|].
  intros Hc q k. now apply search_similar_empty.
Qed.

Lemma rebuild_empty_catalog_keeps_index_witness :
  IndexManager.rebuild_index [] Examples.one_entry_manager
  = (Returns tt, Examples.one_entry_manager).
Proof.
  apply (rebuild_empty_catalog_keeps_index Examples.one_entry_manager []).
  intros m H. destruct H.
Defined.

(** C2 as stated fails: rebuilding a manager that holds one entry from the
    empty catalog, or from a catalog whose only model has no feature vector,
    leaves its count at 1; and on an index that is empty (here a fresh one
    inside a ready manager) a search does not return the empty sequence but
    raises. *)
Lemma rebuild_empty_catalog_not_emptied :
  IndexManager.empty_catalog []
  /\ IndexManager.count
       (snd (IndexManager.rebuild_index [] Examples.one_entry_manager)) = 1%nat
  /\ IndexManager.count
       (snd (IndexManager.rebuild_index
               [{| IndexManager.id := 1; IndexManager.feature_vector := None |}]
               Examples.one_entry_manager)) = 1%nat
  /\ ~ (forall m, IndexManager.count (snd (IndexManager.rebuild_index [] m)) = 0%nat)
  /\ fst (IndexManager.search_similar Examples.e1 5
            (snd (IndexManager.initialize (IndexManager.__init__ Examples.no_files))))
     = Raises AssertionError.
Proof.
  split; [intros m H; destruct H|].
  split; [reflexivity|]. split; [reflexivity|]. split.
  - intros H. specialize (H Examples.one_entry_manager). simpl in H. discriminate.
  - rewrite initialize_eq. reflexivity.
Qed.

End RebuildTheorems.

(** ** Loading a mesh *)

Section LoadFacts.
Import trimesh MeshProcessor.
Import Stdlib.Strings.String.

(** C3, as the code has it: [load_mesh] never raises.  When [trimesh.load]
    raises, or hands back neither a mesh nor a scene, or a later step
    raises, it returns the pair [(None, None)]; in every other case it
    returns the two meshes.  A mesh without faces is not rejected: with
    normalization off it is returned as loaded, with normalization on its
    vertices come back as [nan]. *)
Theorem load_mesh_never_raises (trimesh_load : String.string -> outcome loaded)
  (self : t) (file_path : String.string) :
  (exists r, load_mesh trimesh_load self file_path = Returns r)
  /\ ((exists e, trimesh_load file_path = Raises e)
      \/ trimesh_load file_path = Returns LoadedOther ->
      load_mesh trimesh_load self file_path = Returns (None, None))
  /\ (forall e, load_mesh_body self (trimesh_load file_path) = Raises e ->
      load_mesh trimesh_load self file_path = Returns (None, None))
  /\ (forall vs,
      trimesh_load file_path
      = Returns (LoadedTrimesh {| vertices := vs; faces := [] |}) ->
      normalize self = false ->
      load_mesh trimesh_load self file_path
      = Returns (Some (Num {| vertices := vs; faces := [] |}),
                 Some {| o3d_vertices := vs; o3d_triangles := [] |}))
  /\ (forall v vs,
      trimesh_load file_path
      = Returns (LoadedTrimesh {| vertices := v :: vs; faces := [] |}) ->
      normalize self = true ->
      exists o, load_mesh trimesh_load self file_path = Returns (Some NaN, Some o)).
Proof.
  split; [|split; [|split; [|split]]].
  - unfold load_mesh.
    destruct (load_mesh_body self (trimesh_load file_path)) as [[m o]|e]; eauto.
  - intros [[e H]|H]; unfold load_mesh; rewrite H; reflexivity.
  - intros e H. unfold load_mesh. rewrite H. reflexivity.
  - intros vs H Hn. unfold load_mesh, load_mesh_body. rewrite H, Hn. reflexivity.
  - intros v vs H Hn. unfold load_mesh, load_mesh_body. rewrite H, Hn.
    unfold _normalize_trimesh, centroid, triangles, _normalize_open3d,
      _trimesh_to_open3d. simpl.
    destruct (Rlt_dec 0 _); eauto.
Qed.

Lemma load_mesh_never_raises_witness :
  load_mesh Examples.unreadable {| normalize := true |} "model.obj"%string
  = Returns (None, None).
Proof.
  apply (load_mesh_never_raises Examples.unreadable {| normalize := true |} "model.obj"%string).
  left. exists ValueError. reflexivity.
Defined.

(** C3 as stated fails: on a path that [trimesh.load] rejects, [load_mesh]
    does not fail but returns [(None, None)]; and a mesh without faces comes
    back as a value. *)
Lemma load_mesh_returns_on_bad_input :
  ~ (forall trimesh_load self file_path,
        (exists e, trimesh_load file_path = Raises e) ->
        exists e, load_mesh trimesh_load self file_path = Raises e)
  /\ load_mesh (fun _ => Returns (LoadedTrimesh Examples.points_only))
               {| normalize := false |} "points.obj"%string
     = Returns (Some (Num Examples.points_only),
                Some (_trimesh_to_open3d Examples.points_only)).
Proof.
  split; [|reflexivity].
  intros H.
  destruct (H Examples.unreadable {| normalize := true |} "model.obj"%string)
    as [e He].
  - exists ValueError. reflexivity.
  - discriminate.
Qed.

End LoadFacts.

(** ** Normalizing a mesh *)

Section VectorFacts.
Import trimesh.

Lemma vec3_ext (a b : vec3) : (forall i, coord i a = coord i b) -> a = b.
Proof.
  destruct a as [[ax ay] az], b as [[bx by_] bz]. intros H.
  pose proof (H 0%nat) as H0. pose proof (H 1%nat) as H1. pose proof (H 2%nat) as H2.
  simpl in *. congruence.
Qed.

Lemma coord_vadd i a b : coord i (vadd a b) = coord i a + coord i b.
Proof. destruct a as [[? ?] ?], b as [[? ?] ?], i as [|[|i]]; reflexivity. Qed.

Lemma coord_vsub i a b : coord i (vsub a b) = coord i a - coord i b.
Proof. destruct a as [[? ?] ?], b as [[? ?] ?], i as [|[|i]]; reflexivity. Qed.

Lemma coord_vscale i k a : coord i (vscale k a) = k * coord i a.
Proof. destruct a as [[? ?] ?], i as [|[|i]]; reflexivity. Qed.

Lemma coord_vdiv i a k : coord i (vdiv a k) = coord i a / k.
Proof. destruct a as [[? ?] ?], i as [|[|i]]; reflexivity. Qed.

Lemma coord_vzero i : coord i vzero = 0.
Proof. destruct i as [|[|i]]; reflexivity. Qed.

Lemma coord_vsum i (l : list vec3) : coord i (vsum l) = np.sum (map (coord i) l).
Proof.
  induction l as [|a l IH]; simpl; [apply coord_vzero|].
  rewrite coord_vadd, IH. reflexivity.
Qed.

Lemma vnorm_nonneg (v : vec3) : 0 <= vnorm v.
Proof. destruct v as [[x y] z]. apply sqrt_pos. Qed.

Lemma vnorm_sqr (v : vec3) :
  vnorm v * vnorm v
  = coord 0 v * coord 0 v + coord 1 v * coord 1 v + coord 2 v * coord 2 v.
Proof.
  destruct v as [[x y] z]. simpl. apply sqrt_sqrt. nra.
Qed.

Lemma vnorm_vdiv (v : vec3) (m : R) : 0 < m -> vnorm (vdiv v m) = vnorm v / m.
Proof.
  intros Hm. pose proof (vnorm_sqr v) as Hs. pose proof (vnorm_nonneg v) as Hn.
  destruct v as [[x y] z]. simpl in *.
  apply sqrt_lem_1.
  - assert (H : x / m * (x / m) + y / m * (y / m) + z / m * (z / m)
                = (x * x + y * y + z * z) / (m * m)) by (field; lra).
    rewrite H. apply Rmult_le_pos; [nra|].
    apply Rlt_le, Rinv_0_lt_compat. nra.
  - apply Rmult_le_pos; [exact Hn|]. apply Rlt_le, Rinv_0_lt_compat, Hm.
  - transitivity ((sqrt (x * x + y * y + z * z) * sqrt (x * x + y * y + z * z))
                  / (m * m)); [field; lra|].
    rewrite Hs. field. lra.
Qed.

Lemma vnorm_vscale (k : R) (v : vec3) : 0 <= k -> vnorm (vscale k v) = k * vnorm v.
Proof.
  intros Hk. pose proof (vnorm_sqr v) as Hs. pose proof (vnorm_nonneg v) as Hn.
  destruct v as [[x y] z]. simpl in *.
  apply sqrt_lem_1.
  - nra.
  - apply Rmult_le_pos; assumption.
  - transitivity (k * k * (sqrt (x * x + y * y + z * z)
                           * sqrt (x * x + y * y + z * z))); [ring|].
    rewrite Hs. ring.
Qed.

End VectorFacts.

Section CentroidFacts.
Import trimesh MeshProcessor.

Variables (c : vec3) (M : R).
Hypothesis M_pos : 0 < M.


Lemma vsub_centered (a b : vec3) : vsub ((recentre c M) b) ((recentre c M) a) = vdiv (vsub b a) M.
Proof.
  apply vec3_ext. intros i. unfold recentre.
  rewrite ?coord_vdiv, ?coord_vsub, ?coord_vdiv, ?coord_vsub. field. lra.
Qed.

Lemma cross_vdiv (u w : vec3) :
  cross (vdiv u M) (vdiv w M) = vdiv (cross u w) (M * M).
Proof.
  destruct u as [[ux uy] uz], w as [[wx wy] wz]. simpl.
  f_equal; [f_equal|]; field; lra.
Qed.

Lemma triangle_center_centered (t : triangle) :
  triangle_center (map_triangle (recentre c M) t) = (recentre c M) (triangle_center t).
Proof.
  destruct t as [[a b] d]. apply vec3_ext. intros i.
  unfold triangle_center, map_triangle, recentre.
  rewrite ?coord_vdiv, ?coord_vadd, ?coord_vdiv, ?coord_vsub, ?coord_vdiv,
    ?coord_vadd.
  field. lra.
Qed.

Lemma triangle_area_centered (t : triangle) :
  triangle_area (map_triangle (recentre c M) t) = triangle_area t / (M * M).
Proof.
  destruct t as [[a b] d]. unfold triangle_area, map_triangle.
  rewrite !vsub_centered, cross_vdiv, vnorm_vdiv by nra.
  field. lra.
Qed.

Lemma sum_map_div {T} (w : T -> R) (k : R) (ts : list T) :
  np.sum (map (fun t => w t / k) ts) = np.sum (map w ts) / k.
Proof.
  unfold np.sum. induction ts as [|t ts IH]; simpl; [unfold Rdiv; ring|].
  rewrite IH. unfold Rdiv. ring.
Qed.

Lemma sum_weighted_centered {T} (w g : T -> R) (x : R) (ts : list T) :
  np.sum (map (fun t => w t / (M * M) * ((g t - x) / M)) ts)
  = (np.sum (map (fun t => w t * g t) ts) - np.sum (map w ts) * x) / (M * M * M).
Proof.
  unfold np.sum. induction ts as [|t ts IH]; simpl; [field; lra|].
  rewrite IH. field. lra.
Qed.

Lemma sum_centered {T} (g : T -> R) (x : R) (ts : list T) :
  np.sum (map (fun t => (g t - x) / M) ts)
  = (np.sum (map g ts) - INR (length ts) * x) / M.
Proof.
  unfold np.sum. induction ts as [|t ts IH]; [simpl; field; lra|].
  rewrite length_cons, S_INR. simpl. rewrite IH. field. lra.
Qed.

(** The centroid follows the vertices through [recentre c M]. *)
Lemma centroid_point_centered (ts : list triangle) :
  ts <> [] ->
  centroid_point (map (map_triangle (recentre c M)) ts) = (recentre c M) (centroid_point ts).
Proof.
  intros Hne. unfold centroid_point.
  assert (Hareas : np.sum (map triangle_area (map (map_triangle (recentre c M)) ts))
                   = np.sum (map triangle_area ts) / (M * M)).
  { rewrite map_map. rewrite <- sum_map_div. f_equal.
    apply map_ext. intros t. apply triangle_area_centered. }
  assert (Hn : INR (length ts) <> 0).
  { destruct ts as [|t0 ts']; [contradiction|].
    rewrite length_cons, S_INR. pose proof (pos_INR (length ts')). lra. }
  rewrite Hareas.
  destruct (Req_dec_T (np.sum (map triangle_area ts)) 0) as [Hz|Hnz].
  - rewrite Hz. destruct (Req_dec_T (0 / (M * M)) 0) as [_|Hne'];
      [|exfalso; apply Hne'; unfold Rdiv; ring].
    apply vec3_ext. intros i. unfold vmean, recentre.
    rewrite !coord_vdiv, coord_vsub, !coord_vdiv, !coord_vsum, !map_map, !length_map.
    rewrite (map_ext (fun t => coord i (triangle_center (map_triangle (recentre c M) t)))
                     (fun t => (coord i (triangle_center t) - coord i c) / M)).
    + rewrite sum_centered. field. split; first [lra|exact Hn].
    + intros t. rewrite triangle_center_centered. unfold recentre.
      now rewrite coord_vdiv, coord_vsub.
  - destruct (Req_dec_T (np.sum (map triangle_area ts) / (M * M)) 0) as [Hz'|_].
    { exfalso. apply Hnz.
      assert (HM : M * M <> 0) by nra.
      replace (np.sum (map triangle_area ts))
        with (np.sum (map triangle_area ts) / (M * M) * (M * M)) by (field; lra).
      rewrite Hz'. ring. }
    apply vec3_ext. intros i. unfold recentre.
    rewrite !coord_vdiv, coord_vsub, !coord_vdiv, !coord_vsum, !map_map.
    rewrite (map_ext
               (fun t => coord i (vscale (triangle_area (map_triangle (recentre c M) t))
                                         (triangle_center (map_triangle (recentre c M) t))))
               (fun t => triangle_area t / (M * M)
                         * ((coord i (triangle_center t) - coord i c) / M))).
    + rewrite sum_weighted_centered.
      rewrite (map_ext (fun t => coord i (vscale (triangle_area t) (triangle_center t)))
                       (fun t => triangle_area t * coord i (triangle_center t)))
        by (intros t; apply coord_vscale).
      field. split; first [lra|exact Hnz].
    + intros t. rewrite coord_vscale, triangle_center_centered, triangle_area_centered.
      unfold recentre. now rewrite coord_vdiv, coord_vsub.
Qed.

Lemma centered_at_itself : (recentre c M) c = vzero.
Proof.
  apply vec3_ext. intros i. unfold recentre.
  rewrite coord_vdiv, coord_vsub, coord_vzero. field. lra.
Qed.

End CentroidFacts.

Section NormalizeFacts.
Import trimesh MeshProcessor.

Lemma np_max_upper (n : R) (ns : list R) :
  Forall (fun x => x <= np_max n ns) (n :: ns).
Proof.
  unfold np_max. induction ns as [|a ns IH]; simpl.
  - constructor; [lra|constructor].
  - inversion IH as [|? ? Hn Hns]; subst.
    pose proof (Rmax_l a (fold_right Rmax n ns)) as Hl.
    pose proof (Rmax_r a (fold_right Rmax n ns)) as Hr.
    constructor; [lra|]. constructor; [exact Hl|].
    eapply Forall_impl; [|exact Hns]. simpl. intros x Hx. lra.
Qed.

Lemma np_max_in (n : R) (ns : list R) : In (np_max n ns) (n :: ns).
Proof.
  unfold np_max. induction ns as [|a ns IH]; [now left|].
  cbn [fold_right]. apply Rmax_case_strong; intros _.
  - right. now left.
  - destruct IH as [H|H]; [now left|right; now right].
Qed.

Lemma triangle_of_map (f : vec3 -> vec3) (vs : list vec3) (face : nat * nat * nat) :
  triangle_of (map f vs) face = option_map (map_triangle f) (triangle_of vs face).
Proof.
  destruct face as [[i j] k]. unfold triangle_of. rewrite !nth_error_map.
  destruct (nth_error vs i), (nth_error vs j), (nth_error vs k); reflexivity.
Qed.

Lemma triangles_map (f : vec3 -> vec3) (m : Trimesh) (ts : list triangle) :
  triangles m = Some ts ->
  triangles (with_vertices m (map f (vertices m))) = Some (map (map_triangle f) ts).
Proof.
  unfold triangles, with_vertices. simpl. generalize (vertices m). intros vs.
  revert ts. induction (faces m) as [|face fs IH]; simpl; intros ts H.
  - inversion H. reflexivity.
  - rewrite triangle_of_map. destruct (triangle_of vs face) as [t|]; [|discriminate].
    simpl. destruct (all_some (map (triangle_of vs) fs)) as [r|]; [|discriminate].
    inversion H; subst. rewrite (IH r eq_refl). reflexivity.
Qed.

Lemma triangles_vertices (m : Trimesh) (t : triangle) (ts : list triangle) :
  triangles m = Some (t :: ts) -> vertices m <> [].
Proof.
  unfold triangles. destruct (faces m) as [|[[i j] k] fs]; simpl; [discriminate|].
  intros H Hvs. rewrite Hvs in H. unfold triangle_of in H.
  destruct i; discriminate.
Qed.

(** What [_normalize_trimesh] returns on a mesh with at least one face and
    face indices in range. *)
Lemma normalize_trimesh_eq (m : Trimesh) (ts : list triangle) :
  triangles m = Some ts -> ts <> [] ->
  exists n ns,
    map (fun v => vnorm (vsub v (centroid_point ts))) (vertices m) = n :: ns
    /\ centroid m = Returns (Num (centroid_point ts))
    /\ _normalize_trimesh m
       = Returns (Num (with_vertices m
           (if Rlt_dec 0 (np_max n ns)
            then map (fun v => vdiv (vsub v (centroid_point ts)) (np_max n ns))
                     (vertices m)
            else map (fun v => vsub v (centroid_point ts)) (vertices m)))).
Proof.
  intros Hts Hne. destruct ts as [|t ts]; [contradiction|].
  pose proof (triangles_vertices m t ts Hts) as Hvs.
  assert (Hc : centroid m = Returns (Num (centroid_point (t :: ts))))
    by (unfold centroid; rewrite Hts; reflexivity).
  unfold _normalize_trimesh. rewrite Hc.
  destruct (map vnorm (map (fun v => vsub v (centroid_point (t :: ts))) (vertices m)))
    as [|n ns] eqn:E.
  { destruct (vertices m); [contradiction|discriminate]. }
  exists n, ns. rewrite map_map in E.
  split; [exact E|]. split; [reflexivity|].
  destruct (Rlt_dec 0 (np_max n ns)); rewrite ?map_map; reflexivity.
Qed.

End NormalizeFacts.

Section NormalizeTheorems.
Import trimesh MeshProcessor.

(** C6, as the code has it: on a mesh with at least one face (indices in
    range) [_normalize_trimesh] subtracts from every vertex the trimesh
    centroid [c] -- the mean of the triangle centres weighted by the triangle
    areas (unweighted when the areas sum to zero), not the mean of the
    vertex positions -- and takes [max_distance], the largest norm of a
    centred vertex.  When [max_distance > 0] every centred vertex is divided
    by it: the largest vertex norm of the result is 1 and its centroid is
    the origin.  When [max_distance = 0] the centred mesh is left
    unscaled. *)
Theorem normalize_trimesh_spec (m : Trimesh) (ts : list triangle) :
  triangles m = Some ts -> ts <> [] ->
  exists c max_distance m',
    centroid m = Returns (Num c)
    /\ c = centroid_point ts
    /\ 0 <= max_distance
    /\ Forall (fun v => vnorm (vsub v c) <= max_distance) (vertices m)
    /\ Exists (fun v => vnorm (vsub v c) = max_distance) (vertices m)
    /\ _normalize_trimesh m = Returns (Num m')
    /\ faces m' = faces m
    /\ (0 < max_distance ->
        vertices m' = map (fun v => vdiv (vsub v c) max_distance) (vertices m)
        /\ Forall (fun v => vnorm v <= 1) (vertices m')
        /\ Exists (fun v => vnorm v = 1) (vertices m')
        /\ centroid m' = Returns (Num vzero))
    /\ (max_distance = 0 ->
        vertices m' = map (fun v => vsub v c) (vertices m)).
Proof.
  intros Hts Hne.
  destruct (normalize_trimesh_eq m ts Hts Hne) as [n [ns [E [Hc Hn]]]].
  set (c := centroid_point ts) in *. set (M := np_max n ns) in *.
  pose proof (np_max_upper n ns) as Hup. pose proof (np_max_in n ns) as Hin.
  fold M in Hup, Hin. rewrite <- E in Hup, Hin.
  assert (Hall : Forall (fun v => vnorm (vsub v c) <= M) (vertices m)).
  { apply Forall_forall. intros v Hv. rewrite Forall_forall in Hup.
    apply Hup. apply in_map_iff. exists v. auto. }
  assert (Hex : Exists (fun v => vnorm (vsub v c) = M) (vertices m)).
  { apply Exists_exists. apply in_map_iff in Hin. destruct Hin as [v [Hv Hi]].
    exists v. auto. }
  assert (HM : 0 <= M).
  { apply Exists_exists in Hex. destruct Hex as [v [_ <-]]. apply vnorm_nonneg. }
  eexists c, M, _. split; [exact Hc|]. split; [reflexivity|].
  split; [exact HM|]. split; [exact Hall|]. split; [exact Hex|].
  split; [exact Hn|]. split; [reflexivity|]. split.
  - intros Hpos. destruct (Rlt_dec 0 M) as [_|Hno]; [|contradiction].
    simpl. split; [reflexivity|]. split; [|split].
    + apply Forall_forall. intros v' Hv'. apply in_map_iff in Hv'.
      destruct Hv' as [v [<- Hv]]. rewrite vnorm_vdiv by exact Hpos.
      rewrite Forall_forall in Hall. specialize (Hall v Hv).
      apply (Rmult_le_reg_r M); [exact Hpos|].
      replace (vnorm (vsub v c) / M * M) with (vnorm (vsub v c)) by (field; lra).
      lra.
    + apply Exists_exists in Hex. destruct Hex as [v [Hv Hv']].
      apply Exists_exists. exists (vdiv (vsub v c) M). split.
      * apply in_map_iff. exists v. auto.
      * rewrite vnorm_vdiv by exact Hpos. rewrite Hv'. field. lra.
    + unfold centroid.
      change (fun v => vdiv (vsub v c) M) with (recentre c M).
      rewrite (triangles_map (recentre c M) m ts Hts).
      destruct ts as [|t ts']; [contradiction|].
      unfold centroid_of. cbn [map].
      change (map_triangle (recentre c M) t :: map (map_triangle (recentre c M)) ts')
        with (map (map_triangle (recentre c M)) (t :: ts')).
      rewrite (centroid_point_centered c M Hpos (t :: ts') Hne).
      fold c. rewrite (centered_at_itself c M Hpos). reflexivity.
  - intros Hz. destruct (Rlt_dec 0 M) as [Hpos|_]; [lra|]. reflexivity.
Qed.

End NormalizeTheorems.

Section NormalizeExamples.
Import trimesh MeshProcessor.

Lemma normalize_trimesh_spec_witness :
  exists c max_distance m',
    centroid Examples.kite = Returns (Num c)
    /\ 0 <= max_distance
    /\ _normalize_trimesh Examples.kite = Returns (Num m').
Proof.
  destruct (normalize_trimesh_spec Examples.kite Examples.kite_triangles
              eq_refl ltac:(discriminate))
    as [c [M [m' [Hc [_ [HM [_ [_ [Hn _]]]]]]]]].
  exists c, M, m'. auto.
Defined.

Lemma kite_centroid : centroid_point Examples.kite_triangles = (1, 1, 0).
Proof.
  unfold Examples.kite_triangles.
  assert (A1 : triangle_area ((0, 0, 0), (4, 0, 0), (0, 3, 0)) = 6).
  { unfold triangle_area, vsub, cross, vnorm.
    match goal with |- context [sqrt ?x] => replace x with (12 * 12) by ring end.
    rewrite sqrt_square; lra. }
  assert (A2 : triangle_area ((0, 0, 0), (0, 3, 0), (-1, 0, 0)) = 3 / 2).
  { unfold triangle_area, vsub, cross, vnorm.
    match goal with |- context [sqrt ?x] => replace x with (3 * 3) by ring end.
    rewrite sqrt_square; lra. }
  unfold centroid_point. cbn [map]. rewrite A1, A2. unfold np.sum. cbn [fold_right].
  destruct (Req_dec_T (6 + (3 / 2 + 0)) 0) as [H|_]; [lra|].
  unfold triangle_center, vsum, vscale, vadd, vdiv, vzero. cbn [fold_right].
  f_equal; [f_equal|]; field.
Qed.

(** C6 as stated fails: on the kite the code subtracts the point (1, 1, 0)
    while the mean of the vertex positions is (3/4, 3/4, 0), and the mean of
    the vertex positions of the normalized mesh is not the origin. *)
Lemma normalize_trimesh_not_vertex_mean :
  centroid Examples.kite = Returns (Num (1, 1, 0))
  /\ vmean (vertices Examples.kite) = (3 / 4, 3 / 4, 0)
  /\ ~ (forall m m', _normalize_trimesh m = Returns (Num m') ->
                     vmean (vertices m') = vzero).
Proof.
  split; [|split].
  - unfold centroid. cbn. f_equal. f_equal. apply kite_centroid.
  - unfold vmean, vsum, vadd, vdiv, vzero. cbn. f_equal; [f_equal|]; lra.
  - intros H.
    destruct (normalize_trimesh_eq Examples.kite Examples.kite_triangles
                eq_refl ltac:(discriminate))
      as [n [ns [_ [_ Hn]]]].
    specialize (H _ _ Hn). rewrite kite_centroid in H.
    apply (f_equal (coord 0)) in H. revert H.
    destruct (Rlt_dec 0 (np_max n ns)) as [Hpos|_];
      unfold vmean, vsum, vadd, vsub, vdiv, vzero; cbn; intros H.
    + set (M := np_max n ns) in *.
      assert (E : ((0 - 1) / M + ((4 - 1) / M + ((0 - 1) / M + ((-1 - 1) / M + 0))))
                  / (1 + 1 + 1 + 1) = - / (4 * M)) by (field; lra).
      rewrite E in H.
      assert (Hinv : 0 < / (4 * M)) by (apply Rinv_0_lt_compat; lra).
      lra.
    + lra.
Qed.

End NormalizeExamples.

(** ** The descriptor vector *)

Section ExtractorFacts.
Import trimesh FeatureExtractor.

Variable rng : Type.
Variable lib : library rng.



Lemma histogram_density_length (a : list R) (bins : nat) :
  length (histogram_density a bins) = bins.
Proof. unfold histogram_density. now rewrite length_map, length_seq. Qed.









End ExtractorFacts.

(** * Further properties of the code *)

(** ** The index: persistence and rebuild *)

Section IndexPersistence.
Import SimilaritySearch storage.

Lemma self_eta (self : t) :
  {| dimension := dimension self; index := index self; model_ids := model_ids self |}
  = self.
Proof. destruct self; reflexivity. Qed.

(** X1: what [save] writes, [load] reads back: on a writable disk [save]
    returns, and a [load] of the written files into any object gives exactly
    the saved object (dimension, vectors, identifiers), so every search
    answers as before the save. *)
Theorem save_load_roundtrip (self other : t) (fs : disk) :
  writable fs = true ->
  fst (save self fs) = Returns tt
  /\ load (snd (save self fs)) other = (Returns tt, self)
  /\ (forall q k,
        search q k (snd (load (snd (save self fs)) other)) = search q k self).
Proof.
  intros Hw. rewrite (save_writes self fs Hw). cbn [fst snd].
  assert (H : load {| index_file := Stored (index self);
                      metadata_file := Stored {| md_model_ids := model_ids self;
                                                 md_dimension := dimension self |};
                      writable := true |} other = (Returns tt, self)).
  { erewrite load_stored; [|reflexivity|reflexivity].
    cbn. now rewrite self_eta. }
  split; [reflexivity|]. split; [exact H|].
  intros q k. rewrite H. reflexivity.
Qed.

Lemma save_load_roundtrip_witness :
  load (snd (save Examples.one_entry Examples.no_files)) (__init__ 83)
  = (Returns tt, Examples.one_entry).
Proof.
  apply (save_load_roundtrip Examples.one_entry (__init__ 83) Examples.no_files).
  reflexivity.
Defined.

Lemma rebuild_index_eq (self : t) (vectors : np.ndarray) (ids : list Z) :
  np.shape1 vectors = dimension self ->
  rebuild_index vectors ids self
  = (Returns tt,
     {| dimension := dimension self;
        index := {| faiss.d := dimension self;
                    faiss.xb := map np.normalized_row (np.rows vectors) |};
        model_ids := ids |}).
Proof.
  intros Hs. unfold rebuild_index, _initialize_index, bind, get, put.
  cbn [fst snd].
  rewrite add_vectors_eq; [reflexivity|exact Hs|reflexivity].
Qed.

Lemma rebuild_index_rejects (self : t) (vectors : np.ndarray) (ids : list Z) :
  np.shape1 vectors <> dimension self ->
  rebuild_index vectors ids self
  = (Raises ValueError,
     {| dimension := dimension self;
        index := faiss.new (dimension self);
        model_ids := [] |}).
Proof.
  intros Hs. unfold rebuild_index, _initialize_index, bind, get, put.
  cbn [fst snd]. unfold add_vectors, bind, get, raise. cbn [dimension set_model_ids set_index].
  apply Nat.eqb_neq in Hs. rewrite Hs. reflexivity.
Qed.

(** X2: a [rebuild_index] whose rows have the index dimension returns and
    replaces the whole content: the index then holds exactly the given rows,
    each normalized, under the given identifiers, in the given order,
    whatever it held before (also when it was not co-indexed or its faiss
    index had another width). *)
Theorem rebuild_index_replaces (self other : t) (vectors : np.ndarray) (ids : list Z) :
  np.shape1 vectors = dimension self ->
  rebuild_index vectors ids self
  = (Returns tt,
     {| dimension := dimension self;
        index := {| faiss.d := dimension self;
                    faiss.xb := map np.normalized_row (np.rows vectors) |};
        model_ids := ids |})
  /\ faiss.ntotal (index (snd (rebuild_index vectors ids self)))
     = length (np.rows vectors)
  /\ (dimension other = dimension self ->
      rebuild_index vectors ids other = rebuild_index vectors ids self).
Proof.
  intros Hs. rewrite (rebuild_index_eq self vectors ids Hs).
  split; [reflexivity|]. split.
  - cbn. unfold faiss.ntotal. cbn. apply length_map.
  - intros Ho. rewrite rebuild_index_eq by congruence. now rewrite Ho.
Qed.

Lemma rebuild_index_replaces_witness :
  faiss.ntotal
    (index (snd (rebuild_index {| np.shape1 := 83; np.rows := [] |} []
                   Examples.one_entry))) = 0%nat.
Proof.
  apply (rebuild_index_replaces Examples.one_entry Examples.one_entry
           {| np.shape1 := 83; np.rows := [] |} []).
  reflexivity.
Defined.

(** X3: a [rebuild_index] whose rows do not have the index dimension raises
    the dimension [ValueError] only after it has reset the index: unlike a
    failed [add_vectors], the failed rebuild leaves the index empty, its
    previous vectors and identifiers gone. *)
Theorem rebuild_index_wrong_dimension (self : t) (vectors : np.ndarray) (ids : list Z) :
  np.shape1 vectors <> dimension self ->
  fst (rebuild_index vectors ids self) = Raises ValueError
  /\ dimension (snd (rebuild_index vectors ids self)) = dimension self
  /\ faiss.ntotal (index (snd (rebuild_index vectors ids self))) = 0%nat
  /\ model_ids (snd (rebuild_index vectors ids self)) = [].
Proof.
  intros Hs. rewrite (rebuild_index_rejects self vectors ids Hs).
  repeat split.
Qed.

Lemma rebuild_index_wrong_dimension_witness :
  faiss.ntotal
    (index (snd (rebuild_index (np.array_of_row [1; 0]) [9%Z] Examples.one_entry)))
  = 0%nat.
Proof.
  apply (rebuild_index_wrong_dimension Examples.one_entry (np.array_of_row [1; 0]) [9%Z]).
  cbn. lia.
Defined.

End IndexPersistence.

(** ** The index: what a search returns *)

Section SearchHits.
Import SimilaritySearch.

Lemma combine_seq_nth {A} (l : list A) (s : nat) (a : A) (i : nat) :
  In (a, i) (combine l (seq s (length l)))
  <-> exists j, i = (s + j)%nat /\ nth_error l j = Some a.
Proof.
  revert s. induction l as [|b l IH]; intros s; simpl.
  - split; [contradiction|]. intros [j [_ H]]. destruct j; discriminate.
  - rewrite IH. split.
    + intros [H|[j [Hi Hj]]].
      * inversion H; subst. exists 0%nat. split; [lia|reflexivity].
      * exists (S j). split; [lia|exact Hj].
    + intros [[|j] [Hi Hj]].
      * left. simpl in Hj. inversion Hj; subst. f_equal. lia.
      * right. exists j. split; [lia|exact Hj].
Qed.

Lemma map_snd_combine_seq {A} (l : list A) (s : nat) :
  map snd (combine l (seq s (length l))) = seq s (length l).
Proof.
  revert s. induction l as [|b l IH]; intros s; simpl; [reflexivity|].
  now rewrite IH.
Qed.

Lemma insert_hit_labels (h : R * nat) (l : list (R * nat)) (x : nat) :
  In x (map snd (faiss.insert_hit h l)) <-> x = snd h \/ In x (map snd l).
Proof.
  induction l as [|h' t IH]; simpl.
  - intuition.
  - destruct (Rle_dec (fst h) (fst h')); simpl; [intuition|].
    rewrite IH. intuition.
Qed.

Lemma insert_hit_NoDup (h : R * nat) (l : list (R * nat)) :
  ~ In (snd h) (map snd l) -> NoDup (map snd l) ->
  NoDup (map snd (faiss.insert_hit h l)).
Proof.
  induction l as [|h' t IH]; simpl; intros Hn Hd.
  - constructor; [intros []|constructor].
  - destruct (Rle_dec (fst h) (fst h')); simpl.
    + constructor; [exact Hn|exact Hd].
    + inversion Hd as [|? ? Hh' Ht]; subst. constructor.
      * rewrite insert_hit_labels. intros [H|H]; [|contradiction].
        apply Hn. left. congruence.
      * apply IH; [|exact Ht]. intros H. apply Hn. now right.
Qed.

Lemma sort_hits_labels (l : list (R * nat)) (x : nat) :
  In x (map snd (faiss.sort_hits l)) <-> In x (map snd l).
Proof.
  induction l as [|h t IH]; simpl; [reflexivity|].
  unfold faiss.sort_hits in *. rewrite insert_hit_labels, IH. intuition.
Qed.

Lemma sort_hits_NoDup (l : list (R * nat)) :
  NoDup (map snd l) -> NoDup (map snd (faiss.sort_hits l)).
Proof.
  induction l as [|h t IH]; simpl; intros Hd; [constructor|].
  inversion Hd as [|? ? Hh Ht]; subst.
  apply insert_hit_NoDup; [|apply IH, Ht].
  fold (faiss.sort_hits t). rewrite sort_hits_labels. exact Hh.
Qed.

Lemma firstn_NoDup {A} (k : nat) (l : list A) : NoDup l -> NoDup (firstn k l).
Proof.
  intros H. rewrite <- (firstn_skipn k l) in H.
  eapply NoDup_app_remove_r. exact H.
Qed.

Lemma sorted_firstn_skipn {A} (P : A -> A -> Prop) (l : list A) (k : nat) (a b : A) :
  StronglySorted P l -> In a (firstn k l) -> In b (skipn k l) -> P a b.
Proof.
  intros Hs. revert k. induction Hs as [|x l Hl IH Hall]; intros k Ha Hb.
  - destruct k; contradiction.
  - destruct k as [|k]; [contradiction|]. simpl in Ha, Hb.
    destruct Ha as [<-|Ha].
    + rewrite Forall_forall in Hall. apply Hall.
      rewrite <- (firstn_skipn k l). apply in_or_app. now right.
    + eapply IH; eauto.
Qed.

Section Knn.
Variables (idx : faiss.IndexFlatL2) (q : list R) (k : nat).

Lemma knn_sorted_list :
  exists L,
    faiss.knn idx q k = firstn k L
    /\ StronglySorted faiss.closer L
    /\ NoDup (map snd L)
    /\ (forall d j, In (d, j) L
                    <-> exists v, nth_error (faiss.xb idx) j = Some v
                                  /\ d = faiss.fvec_L2sqr q v).
Proof.
  unfold faiss.knn.
  set (dists := map (faiss.fvec_L2sqr q) (faiss.xb idx)).
  assert (Hlen : faiss.ntotal idx = length dists)
    by (unfold dists, faiss.ntotal; now rewrite length_map).
  rewrite Hlen.
  exists (faiss.sort_hits (combine dists (seq 0 (length dists)))).
  split; [reflexivity|]. split; [apply sort_hits_sorted|]. split.
  - apply sort_hits_NoDup. rewrite map_snd_combine_seq. apply seq_NoDup.
  - intros d j. rewrite sort_hits_In, combine_seq_nth. unfold dists. split.
    + intros [j' [Hj Hn]]. simpl in Hj. subst j'.
      rewrite nth_error_map in Hn.
      destruct (nth_error (faiss.xb idx) j) as [v|]; [|discriminate].
      exists v. simpl in Hn. inversion Hn. auto.
    + intros [v [Hv ->]]. exists j. split; [reflexivity|].
      rewrite nth_error_map, Hv. reflexivity.
Qed.

(** Every candidate returned by the scan is a stored vector with its own
    squared distance; no label comes twice; a stored vector that is left out
    is at least as far as each one returned. *)
Lemma knn_hits :
  Forall (fun h => exists v, nth_error (faiss.xb idx) (snd h) = Some v
                             /\ fst h = faiss.fvec_L2sqr q v)
         (faiss.knn idx q k)
  /\ NoDup (map snd (faiss.knn idx q k))
  /\ (forall j v, nth_error (faiss.xb idx) j = Some v ->
                  ~ In j (map snd (faiss.knn idx q k)) ->
                  Forall (fun h => fst h <= faiss.fvec_L2sqr q v) (faiss.knn idx q k)).
Proof.
  destruct knn_sorted_list as [L [-> [Hs [Hd HL]]]].
  split; [|split].
  - apply Forall_forall. intros [d j] Hin. apply In_firstn in Hin.
    apply HL in Hin. exact Hin.
  - rewrite <- firstn_map. apply firstn_NoDup, Hd.
  - intros j v Hv Hout. apply Forall_forall. intros h Hh.
    assert (HinL : In (faiss.fvec_L2sqr q v, j) L) by (apply HL; eauto).
    rewrite <- (firstn_skipn k L) in HinL. apply in_app_or in HinL.
    destruct HinL as [Hf|Hk].
    + exfalso. apply Hout. apply in_map_iff.
      exists (faiss.fvec_L2sqr q v, j). auto.
    + apply (sorted_firstn_skipn faiss.closer L k h _ Hs Hh Hk).
Qed.

(** The first candidate is a nearest stored vector. *)
Lemma knn_head_min (h : R * nat) (rest : list (R * nat)) :
  faiss.knn idx q k = h :: rest ->
  forall v, In v (faiss.xb idx) -> fst h <= faiss.fvec_L2sqr q v.
Proof.
  destruct knn_sorted_list as [L [-> [Hs [_ HL]]]].
  intros Hk v Hv. apply In_nth_error in Hv. destruct Hv as [j Hj].
  assert (HinL : In (faiss.fvec_L2sqr q v, j) L) by (apply HL; eauto).
  destruct L as [|x L']; [destruct k; discriminate|].
  destruct k as [|k']; [discriminate|]. simpl in Hk. inversion Hk; subst.
  inversion Hs as [|? ? _ Hall]; subst.
  destruct HinL as [Heq|Hin]; [rewrite Heq; simpl; lra|].
  rewrite Forall_forall in Hall. apply (Hall _ Hin).
Qed.

End Knn.

Lemma mapM_model_id_at_ids (self s s' : t) (labels : list nat) (ids : list Z) :
  mapM (model_id_at self) labels s = (Returns ids, s') ->
  map (nth_error (model_ids self)) labels = map Some ids.
Proof.
  revert ids. induction labels as [|i labels IH]; simpl; intros ids H.
  - inversion H. reflexivity.
  - unfold bind in H. pose proof (model_id_at_state self s i) as Hi.
    unfold model_id_at in H at 1, Hi.
    destruct (nth_error (model_ids self) i) as [id|] eqn:Hn; [|discriminate].
    unfold ret in H at 1.
    destruct (mapM (model_id_at self) labels s) as [[ids'|e] s2]; [|discriminate].
    inversion H; subst. simpl. f_equal. now apply IH.
Qed.

(** A returned search in terms of the scan. *)
Lemma search_hits (self self' : t) (q : list R) (k : Z) (ids : list Z) (sims : list R) :
  search q k self = (Returns (ids, sims), self') ->
  exists n,
    let hits := faiss.knn (index self) (np.normalized_row q) n in
    hits <> []
    /\ sims = map similarity (map fst hits)
    /\ map (nth_error (model_ids self)) (map snd hits) = map Some ids.
Proof.
  intros H. destruct (search_guards _ _ _ _ _ H) as [Hq [Hd [Hk Hn]]].
  rewrite (search_eq self q k Hq Hd Hk Hn) in H. cbv zeta in H.
  exists (Z.to_nat (Z.min k (Z.of_nat (faiss.ntotal (index self))))). cbv zeta.
  destruct (knn_spec (index self) (np.normalized_row q)
              (Z.to_nat (Z.min k (Z.of_nat (faiss.ntotal (index self))))))
    as [Hlen _].
  set (hits := faiss.knn _ _ _) in *.
  destruct (mapM (model_id_at self) (map snd hits) self) as [[ids'|e] s] eqn:Hm;
    [|discriminate].
  inversion H; subst. split; [|split; [reflexivity|]].
  - intros He. rewrite He in Hlen. simpl in Hlen. lia.
  - eapply mapM_model_id_at_ids; eauto.
Qed.

End SearchHits.

Section SearchExtras.
Import SimilaritySearch.

(** X4: a query whose length is not the index dimension makes [search]
    raise the dimension [ValueError] before faiss is called, whatever [k]
    is, and leaves the object as it was. *)
Theorem search_wrong_dimension (self : t) (q : list R) (k : Z) :
  length q <> dimension self ->
  search q k self = (Raises ValueError, self).
Proof.
  intros Hne. unfold search, bind, get, raise.
  apply Nat.eqb_neq in Hne. rewrite Hne. reflexivity.
Qed.

Lemma search_wrong_dimension_witness :
  search [1; 0] 5 Examples.one_entry = (Raises ValueError, Examples.one_entry).
Proof.
  apply search_wrong_dimension. cbn. lia.
Defined.

(** X5: the hits of a returned search are stored entries, no entry twice:
    there are positions [labels] of the index, pairwise different, such that
    the i-th identifier is the identifier at the i-th position and the i-th
    score is [similarity] of the squared distance between the normalized
    query and the vector at that position; and every stored vector that is
    not among them scores no higher than any hit. *)
Theorem search_hits_are_nearest_entries (self self' : t) (q : list R) (k : Z)
  (ids : list Z) (sims : list R) :
  search q k self = (Returns (ids, sims), self') ->
  exists labels,
    NoDup labels
    /\ map (nth_error (model_ids self)) labels = map Some ids
    /\ map (fun l => option_map
                       (fun v => similarity (faiss.fvec_L2sqr (np.normalized_row q) v))
                       (nth_error (faiss.xb (index self)) l))
           labels
       = map Some sims
    /\ (forall j v,
          nth_error (faiss.xb (index self)) j = Some v -> ~ In j labels ->
          Forall (fun s => similarity (faiss.fvec_L2sqr (np.normalized_row q) v) <= s)
                 sims).
Proof.
  intros H. destruct (search_hits _ _ _ _ _ _ H) as [n [_ [Hsims Hids]]].
  cbv zeta in Hsims, Hids.
  destruct (knn_hits (index self) (np.normalized_row q) n) as [Hst [Hnd Hout]].
  destruct (knn_spec (index self) (np.normalized_row q) n) as [_ [_ Hpos]].
  set (hits := faiss.knn (index self) (np.normalized_row q) n) in *.
  exists (map snd hits). split; [exact Hnd|]. split; [exact Hids|]. split.
  - rewrite Hsims, !map_map. apply map_ext_in. intros h Hh.
    rewrite Forall_forall in Hst. destruct (Hst h Hh) as [v [Hv Hd]].
    rewrite Hv. simpl. now rewrite Hd.
  - intros j v Hv Hj. specialize (Hout j v Hv Hj).
    rewrite Hsims. apply Forall_forall. intros s Hs.
    apply in_map_iff in Hs. destruct Hs as [d [<- Hd]].
    apply in_map_iff in Hd. destruct Hd as [h [<- Hh]].
    rewrite Forall_forall in Hout, Hpos.
    apply similarity_antitone; [apply (Hpos h Hh)|apply (Hout h Hh)].
Qed.

Lemma search_hits_are_nearest_entries_witness :
  exists labels,
    NoDup labels
    /\ map (nth_error (model_ids Examples.one_entry)) labels = map Some [1%Z].
Proof.
  destruct (search_hits_are_nearest_entries Examples.one_entry Examples.one_entry
              Examples.e1 5 [1%Z] [similarity (faiss.fvec_L2sqr
                                     (np.normalized_row Examples.e1) Examples.e1)])
    as [labels [Hnd [Hids _]]].
  - rewrite search_eq; [reflexivity|reflexivity|reflexivity|lia|apply Nat.lt_0_1].
  - exists labels. auto.
Defined.



(** X7: a query whose normalized form is stored in the index finds itself:
    whenever the search returns, its first score is exactly 1. *)
Theorem search_finds_stored_query (self self' : t) (q : list R) (k : Z)
  (ids : list Z) (sims : list R) :
  In (np.normalized_row q) (faiss.xb (index self)) ->
  search q k self = (Returns (ids, sims), self') ->
  exists rest, sims = 1 :: rest.
Proof.
  intros Hin H. destruct (search_hits _ _ _ _ _ _ H) as [n [Hne [Hsims _]]].
  cbv zeta in Hne, Hsims.
  destruct (knn_spec (index self) (np.normalized_row q) n) as [_ [_ Hpos]].
  destruct (faiss.knn (index self) (np.normalized_row q) n) as [|h rest] eqn:Hknn;
    [contradiction|].
  exists (map similarity (map fst rest)). rewrite Hsims. simpl. f_equal.
  pose proof (knn_head_min (index self) (np.normalized_row q) n h rest Hknn
                _ Hin) as Hmin.
  rewrite fvec_L2sqr_self in Hmin.
  inversion Hpos as [|? ? [Hh _] _]; subst.
  assert (Hz : fst h = 0) by lra. rewrite Hz. apply similarity_0.
Qed.

Lemma search_finds_stored_query_witness :
  exists rest,
    [similarity (faiss.fvec_L2sqr (np.normalized_row Examples.e1) Examples.e1)]
    = 1 :: rest.
Proof.
  apply (search_finds_stored_query Examples.one_entry Examples.one_entry
           Examples.e1 5 [1%Z]).
  - left. symmetry. apply normalized_row_unit. unfold np.norm, Examples.e1.
    replace (np.sum_sq (1 :: repeat 0 82)) with 1; [apply sqrt_1|].
    unfold np.sum_sq, np.sum. cbn [map fold_right].
    fold (np.sum (map (fun x => x * x) (repeat 0 82))).
    fold (np.sum_sq (repeat 0 82)). rewrite sum_sq_repeat_0. lra.
  - rewrite search_eq; [reflexivity|reflexivity|reflexivity|lia|apply Nat.lt_0_1].
Defined.

End SearchExtras.

(** ** The index: normalization and scores *)

Section ScoreExtras.
Import SimilaritySearch.









(** X9: between a unit query [u] and a stored unit vector [w] of cosine
    [c = u.w], the score computed from the squared distance [2 - 2c] that
    faiss reports is [max(0, 1 - (1 - c)^2)]: it is 1 for [c = 1] and exactly
    0 for every vector at a right angle or more ([c <= 0]). *)
Theorem similarity_of_unit_vectors (u w : list R) :
  length u = length w -> np.sum_sq u = 1 -> np.sum_sq w = 1 ->
  faiss.fvec_L2sqr u w = 2 - 2 * np.dot u w
  /\ similarity (faiss.fvec_L2sqr u w)
     = Rmax 0 (1 - (1 - np.dot u w) * (1 - np.dot u w))
  /\ (np.dot u w = 1 -> similarity (faiss.fvec_L2sqr u w) = 1)
  /\ (np.dot u w <= 0 -> similarity (faiss.fvec_L2sqr u w) = 0).
Proof.
  intros Hlen Hu Hw.
  assert (Hd : faiss.fvec_L2sqr u w = 2 - 2 * np.dot u w)
    by (rewrite fvec_L2sqr_expand, Hu, Hw by exact Hlen; ring).
  assert (Hs : similarity (faiss.fvec_L2sqr u w)
               = Rmax 0 (1 - (1 - np.dot u w) * (1 - np.dot u w))).
  { rewrite Hd. unfold similarity. f_equal. field. }
  split; [exact Hd|]. split; [exact Hs|]. split.
  - intros H1. rewrite Hs, H1.
    replace (1 - (1 - 1) * (1 - 1)) with 1 by ring. apply Rmax_right. lra.
  - intros H0. rewrite Hs. apply Rmax_left. nra.
Qed.

Lemma similarity_of_unit_vectors_witness :
  similarity (faiss.fvec_L2sqr [1; 0] [0; 1]) = 0.
Proof.
  apply (similarity_of_unit_vectors [1; 0] [0; 1]);
    try reflexivity; unfold np.sum_sq, np.dot, np.sum; simpl; lra.
Defined.

Lemma normalized_row_norm (r : list R) :
  np.norm (np.normalized_row r) = 1 \/ np.norm (np.normalized_row r) = 0.
Proof.
  unfold np.normalized_row. destruct (Req_dec_T (np.norm r) 0) as [Hz|Hnz].
  - now right.
  - left. now apply norm_div_row_norm.
Qed.

(** X10: every vector that [add_vectors] or [rebuild_index] puts into the
    index has L2 norm 1, or norm 0 (an all-zeros row): a fresh index has
    this property, [add_vectors] keeps it and [rebuild_index] establishes
    it, whether they return or raise. *)
Theorem stored_vectors_normalized :
  let normalized (self : t) :=
    Forall (fun v => np.norm v = 1 \/ np.norm v = 0) (faiss.xb (index self)) in
  (forall D, normalized (__init__ D))
  /\ (forall self vectors ids,
        normalized self -> normalized (snd (add_vectors vectors ids self)))
  /\ (forall self vectors ids, normalized (snd (rebuild_index vectors ids self))).
Proof.
  cbv zeta. split; [intros D; constructor|]. split.
  - intros self vectors ids Hn.
    destruct (add_vectors_cases self vectors ids) as [[e H]|H]; rewrite H;
      [exact Hn|].
    cbn. apply Forall_app. split; [exact Hn|].
    apply Forall_forall. intros v Hv. apply in_map_iff in Hv.
    destruct Hv as [r [<- _]]. apply normalized_row_norm.
  - intros self vectors ids.
    destruct (Nat.eq_dec (np.shape1 vectors) (dimension self)) as [Hs|Hs].
    + rewrite (rebuild_index_eq self vectors ids Hs). cbn.
      apply Forall_forall. intros v Hv. apply in_map_iff in Hv.
      destruct Hv as [r [<- _]]. apply normalized_row_norm.
    + rewrite (rebuild_index_rejects self vectors ids Hs). constructor.
Qed.

End ScoreExtras.

(** ** The manager: adding, rebuilding, restarting *)

Section ManagerExtras.
Import storage.

Lemma manager_eta (m : IndexManager.t) :
  {| IndexManager.search_engine := IndexManager.search_engine m;
     IndexManager._ready := IndexManager._ready m;
     IndexManager.fs := IndexManager.fs m |} = m.
Proof. destruct m; reflexivity. Qed.

(** What [_save_index] does: it writes when it can and never raises. *)
Lemma save_index_eq (m : IndexManager.t) (e : SimilaritySearch.t) :
  IndexManager.search_engine m = Some e ->
  IndexManager._save_index m
  = (Returns tt,
     {| IndexManager.search_engine := Some e;
        IndexManager._ready := IndexManager._ready m;
        IndexManager.fs := if writable (IndexManager.fs m)
                           then SimilaritySearch.files_of e
                           else IndexManager.fs m |}).
Proof.
  intros He. unfold IndexManager._save_index, try_except, bind, get.
  rewrite He. unfold IndexManager.on_disk, SimilaritySearch.save, bind, get, raise, put.
  destruct (writable (IndexManager.fs m)) eqn:Hw; cbn [negb].
  - unfold IndexManager.set_fs, SimilaritySearch.files_of. cbn.
    rewrite He. reflexivity.
  - unfold ret, IndexManager.set_fs. rewrite He. reflexivity.
Qed.

Lemma save_index_returns (m : IndexManager.t) :
  fst (IndexManager._save_index m) = Returns tt.
Proof.
  destruct (IndexManager.search_engine m) as [e|] eqn:He.
  - now rewrite (save_index_eq m e He).
  - unfold IndexManager._save_index, try_except, bind, get. rewrite He. reflexivity.
Qed.

(** X11: before [initialize] the manager refuses to work: [add_model] and
    [search_similar] raise [RuntimeError] and change neither the manager nor
    the disk, and [get_stats] has no numbers to report. *)
Theorem manager_not_ready (m : IndexManager.t) (model_id : Z) (v : list R) (k : Z) :
  IndexManager._ready m = false ->
  IndexManager.add_model model_id v m = (Raises RuntimeError, m)
  /\ IndexManager.search_similar v k m = (Raises RuntimeError, m)
  /\ IndexManager.get_stats m = None.
Proof.
  intros Hr.
  unfold IndexManager.add_model, IndexManager.search_similar,
    IndexManager.get_stats, bind, get, raise.
  rewrite Hr. repeat split.
Qed.

Lemma manager_not_ready_witness :
  IndexManager.add_model 1 Examples.e1 (IndexManager.__init__ Examples.no_files)
  = (Raises RuntimeError, IndexManager.__init__ Examples.no_files).
Proof.
  apply (manager_not_ready (IndexManager.__init__ Examples.no_files) 1 Examples.e1 1).
  reflexivity.
Defined.

Lemma add_model_eq (m : IndexManager.t) (e : SimilaritySearch.t)
  (model_id : Z) (fv : list R) :
  IndexManager._ready m = true ->
  IndexManager.search_engine m = Some e ->
  length fv = SimilaritySearch.dimension e ->
  faiss.d (SimilaritySearch.index e) = SimilaritySearch.dimension e ->
  let e' := {| SimilaritySearch.dimension := SimilaritySearch.dimension e;
               SimilaritySearch.index :=
                 {| faiss.d := faiss.d (SimilaritySearch.index e);
                    faiss.xb := faiss.xb (SimilaritySearch.index e)
                                ++ [np.normalized_row fv] |};
               SimilaritySearch.model_ids :=
                 SimilaritySearch.model_ids e ++ [model_id] |} in
  IndexManager.add_model model_id fv m
  = (Returns tt,
     {| IndexManager.search_engine := Some e';
        IndexManager._ready := true;
        IndexManager.fs := if writable (IndexManager.fs m)
                           then SimilaritySearch.files_of e'
                           else IndexManager.fs m |}).
Proof.
  intros Hr He Hlen Hd e'.
  unfold IndexManager.add_model, bind, get. rewrite Hr. cbn [negb].
  unfold IndexManager.on_engine. rewrite He.
  rewrite add_vectors_eq; [|exact Hlen|exact Hd].
  cbn [np.rows np.array_of_row np.reshape_row map]. fold e'.
  rewrite (save_index_eq (IndexManager.set_engine m e') e' eq_refl).
  unfold IndexManager.set_engine. cbn. rewrite Hr. reflexivity.
Qed.

(** X12: on a ready manager whose index has the vector's dimension,
    [add_model] returns, the index holds one entry more (the normalized
    vector under the given identifier, at the end), and the disk holds the
    new index when it can be written; when it cannot, the failed save is
    swallowed: the call still returns, the index in memory is updated and
    the disk is as it was. *)
Theorem add_model_adds_and_saves (m : IndexManager.t) (e : SimilaritySearch.t)
  (model_id : Z) (fv : list R) :
  IndexManager._ready m = true ->
  IndexManager.search_engine m = Some e ->
  length fv = SimilaritySearch.dimension e ->
  faiss.d (SimilaritySearch.index e) = SimilaritySearch.dimension e ->
  exists e',
    fst (IndexManager.add_model model_id fv m) = Returns tt
    /\ IndexManager.search_engine (snd (IndexManager.add_model model_id fv m)) = Some e'
    /\ SimilaritySearch.entries e'
       = combine (SimilaritySearch.model_ids e ++ [model_id])
                 (faiss.xb (SimilaritySearch.index e) ++ [np.normalized_row fv])
    /\ IndexManager.count (snd (IndexManager.add_model model_id fv m))
       = S (IndexManager.count m)
    /\ IndexManager.fs (snd (IndexManager.add_model model_id fv m))
       = (if writable (IndexManager.fs m)
          then SimilaritySearch.files_of e'
          else IndexManager.fs m).
Proof.
  intros Hr He Hlen Hd.
  pose proof (add_model_eq m e model_id fv Hr He Hlen Hd) as H. cbv zeta in H.
  eexists. rewrite H. cbn [fst snd IndexManager.search_engine IndexManager.fs].
  split; [reflexivity|]. split; [reflexivity|]. split; [reflexivity|].
  split; [|reflexivity].
  unfold IndexManager.count. rewrite He. cbn. unfold faiss.ntotal.
  rewrite length_app. cbn. lia.
Qed.

Lemma add_model_adds_and_saves_witness :
  exists e',
    IndexManager.search_engine
      (snd (IndexManager.add_model 2 Examples.e1 Examples.one_entry_manager))
    = Some e'.
Proof.
  destruct (add_model_adds_and_saves Examples.one_entry_manager Examples.one_entry
              2 Examples.e1 eq_refl eq_refl eq_refl eq_refl)
    as [e' [_ [H _]]].
  exists e'. exact H.
Defined.

(** X13: what [add_model] has saved survives a restart: after a returned
    [add_model] on a writable disk, a new manager initialized from that disk
    is ready and holds the same index (dimension, vectors, identifiers) as
    the manager that was running. *)
Theorem add_model_survives_restart (m : IndexManager.t) (e : SimilaritySearch.t)
  (model_id : Z) (fv : list R) :
  IndexManager._ready m = true ->
  IndexManager.search_engine m = Some e ->
  length fv = SimilaritySearch.dimension e ->
  faiss.d (SimilaritySearch.index e) = SimilaritySearch.dimension e ->
  writable (IndexManager.fs m) = true ->
  let m' := snd (IndexManager.add_model model_id fv m) in
  let restarted := snd (main.startup (IndexManager.fs m')) in
  fst (main.startup (IndexManager.fs m')) = Returns tt
  /\ IndexManager.is_ready restarted = true
  /\ IndexManager.search_engine restarted = IndexManager.search_engine m'.
Proof.
  intros Hr He Hlen Hd Hw m' restarted.
  pose proof (add_model_eq m e model_id fv Hr He Hlen Hd) as H. cbv zeta in H.
  unfold restarted, m', main.startup. rewrite H, Hw.
  cbn [snd IndexManager.fs IndexManager.search_engine].
  rewrite initialize_eq. cbn [fst snd IndexManager.search_engine].
  split; [reflexivity|]. split; reflexivity.
Qed.

Lemma add_model_survives_restart_witness :
  IndexManager.search_engine
    (snd (main.startup
            (IndexManager.fs
               (snd (IndexManager.add_model 2 Examples.e1 Examples.one_entry_manager)))))
  = IndexManager.search_engine
      (snd (IndexManager.add_model 2 Examples.e1 Examples.one_entry_manager)).
Proof.
  apply (add_model_survives_restart Examples.one_entry_manager Examples.one_entry
           2 Examples.e1); reflexivity.
Defined.

End ManagerExtras.

Section ManagerRebuild.
Import storage.

Lemma np_array_uniform (vectors : list (list R)) (w : nat) :
  vectors <> [] -> (forall r, In r vectors -> length r = w) ->
  IndexManager.np_array vectors = Returns {| np.shape1 := w; np.rows := vectors |}.
Proof.
  intros Hne Hall. unfold IndexManager.np_array.
  destruct vectors as [|r0 rest]; [contradiction|]. cbn [hd].
  rewrite (Hall r0) by (now left).
  assert (H : forallb (fun r => Nat.eqb (length r) w) (r0 :: rest) = true).
  { apply forallb_forall. intros r Hr. apply Nat.eqb_eq. now apply Hall. }
  rewrite H. reflexivity.
Qed.

Lemma np_array_ragged (vectors : list (list R)) (x y : list R) :
  In x vectors -> In y vectors -> length x <> length y ->
  IndexManager.np_array vectors = Raises ValueError.
Proof.
  intros Hx Hy Hne. unfold IndexManager.np_array.
  destruct (forallb _ vectors) eqn:H; [|reflexivity].
  rewrite forallb_forall in H.
  pose proof (H x Hx) as H1. pose proof (H y Hy) as H2.
  apply Nat.eqb_eq in H1, H2. congruence.
Qed.

Lemma rebuild_kept (models : list IndexManager.Model3D) (A : Type)
  (nothing : A) (work : A) :
  filter (fun x => IndexManager.truthy (IndexManager.feature_vector x)) models <> [] ->
  match models with
  | [] => nothing
  | _ =>
    match map (fun x => IndexManager.vector_of (IndexManager.feature_vector x))
              (filter (fun x => IndexManager.truthy (IndexManager.feature_vector x))
                      models) with
    | [] => nothing
    | _ => work
    end
  end = work.
Proof.
  intros Hk. destruct models as [|m0 models]; [contradiction|].
  destruct (filter _ (m0 :: models)); [contradiction|reflexivity].
Qed.

(** X14: from a catalog in which at least one model carries a feature vector
    and every carried vector has the index dimension, the manager's
    [rebuild_index] returns; the index then holds exactly the models that
    carry a vector, in catalog order, each normalized vector under its model
    identifier, whatever the index held before; the models without a vector
    are skipped; and the result is saved when the disk can be written. *)
Theorem rebuild_index_from_catalog (m : IndexManager.t) (e : SimilaritySearch.t)
  (models : list IndexManager.Model3D) :
  let kept := filter (fun x => IndexManager.truthy (IndexManager.feature_vector x))
                     models in
  let e' := {| SimilaritySearch.dimension := SimilaritySearch.dimension e;
               SimilaritySearch.index :=
                 {| faiss.d := SimilaritySearch.dimension e;
                    faiss.xb :=
                      map (fun x => np.normalized_row
                                      (IndexManager.vector_of
                                         (IndexManager.feature_vector x))) kept |};
               SimilaritySearch.model_ids := map IndexManager.id kept |} in
  IndexManager.search_engine m = Some e ->
  kept <> [] ->
  (forall x, In x kept ->
             length (IndexManager.vector_of (IndexManager.feature_vector x))
             = SimilaritySearch.dimension e) ->
  IndexManager.rebuild_index models m
  = (Returns tt,
     {| IndexManager.search_engine := Some e';
        IndexManager._ready := IndexManager._ready m;
        IndexManager.fs := if writable (IndexManager.fs m)
                           then SimilaritySearch.files_of e'
                           else IndexManager.fs m |})
  /\ IndexManager.count (snd (IndexManager.rebuild_index models m)) = length kept.
Proof.
  intros kept e' He Hk Hall.
  assert (H : IndexManager.rebuild_index models m
              = (Returns tt,
                 {| IndexManager.search_engine := Some e';
                    IndexManager._ready := IndexManager._ready m;
                    IndexManager.fs := if writable (IndexManager.fs m)
                                       then SimilaritySearch.files_of e'
                                       else IndexManager.fs m |})).
  { unfold IndexManager.rebuild_index. rewrite rebuild_kept by exact Hk.
    fold kept. unfold bind, lift.
    rewrite (np_array_uniform _ (SimilaritySearch.dimension e)).
    - unfold IndexManager.on_engine. rewrite He.
      rewrite rebuild_index_eq by reflexivity.
      cbn [np.rows]. rewrite map_map. fold e'.
      rewrite (save_index_eq (IndexManager.set_engine m e') e' eq_refl).
      reflexivity.
    - destruct kept; [contradiction|discriminate].
    - intros r Hr. apply in_map_iff in Hr. destruct Hr as [x [<- Hx]]. now apply Hall. }
  split; [exact H|]. rewrite H. unfold IndexManager.count. cbn.
  unfold faiss.ntotal. cbn. apply length_map.
Qed.

Lemma rebuild_index_from_catalog_witness :
  IndexManager.count
    (snd (IndexManager.rebuild_index
            [{| IndexManager.id := 7; IndexManager.feature_vector := None |};
             {| IndexManager.id := 8; IndexManager.feature_vector := Some Examples.e1 |}]
            Examples.one_entry_manager)) = 1%nat.
Proof.
  apply (rebuild_index_from_catalog Examples.one_entry_manager Examples.one_entry
           [{| IndexManager.id := 7; IndexManager.feature_vector := None |};
            {| IndexManager.id := 8; IndexManager.feature_vector := Some Examples.e1 |}]).
  - reflexivity.
  - discriminate.
  - intros x [<-|[]]. reflexivity.
Defined.

(** X15: a manager rebuild can fail in two ways.  When the carried vectors
    all have one length that is not the index dimension, the dimension
    [ValueError] is raised after the index in memory has been reset: the
    manager then holds an empty index while the disk still has the files of
    the old one.  When two carried vectors differ in length, building the
    array raises [ValueError] first and nothing changes. *)
Theorem rebuild_index_failures (m : IndexManager.t) (e : SimilaritySearch.t)
  (models : list IndexManager.Model3D) :
  let kept := filter (fun x => IndexManager.truthy (IndexManager.feature_vector x))
                     models in
  IndexManager.search_engine m = Some e ->
  kept <> [] ->
  (forall w,
      w <> SimilaritySearch.dimension e ->
      (forall x, In x kept ->
                 length (IndexManager.vector_of (IndexManager.feature_vector x)) = w) ->
      IndexManager.rebuild_index models m
      = (Raises ValueError,
         {| IndexManager.search_engine :=
              Some {| SimilaritySearch.dimension := SimilaritySearch.dimension e;
                      SimilaritySearch.index :=
                        faiss.new (SimilaritySearch.dimension e);
                      SimilaritySearch.model_ids := [] |};
            IndexManager._ready := IndexManager._ready m;
            IndexManager.fs := IndexManager.fs m |}))
  /\ (forall x y,
         In x kept -> In y kept ->
         length (IndexManager.vector_of (IndexManager.feature_vector x))
         <> length (IndexManager.vector_of (IndexManager.feature_vector y)) ->
         IndexManager.rebuild_index models m = (Raises ValueError, m)).
Proof.
  intros kept He Hk. split.
  - intros w Hw Hall.
    unfold IndexManager.rebuild_index. rewrite rebuild_kept by exact Hk.
    fold kept. unfold bind, lift.
    rewrite (np_array_uniform _ w).
    + unfold IndexManager.on_engine. rewrite He.
      rewrite rebuild_index_rejects by exact Hw. reflexivity.
    + destruct kept; [contradiction|discriminate].
    + intros r Hr. apply in_map_iff in Hr. destruct Hr as [x [<- Hx]]. now apply Hall.
  - intros x y Hx Hy Hne.
    unfold IndexManager.rebuild_index. rewrite rebuild_kept by exact Hk.
    fold kept. unfold bind, lift.
    rewrite (np_array_ragged _ _ _ (in_map _ _ _ Hx) (in_map _ _ _ Hy) Hne).
    reflexivity.
Qed.

Lemma rebuild_index_failures_witness :
  IndexManager.count
    (snd (IndexManager.rebuild_index
            [{| IndexManager.id := 8; IndexManager.feature_vector := Some [1; 0] |}]
            Examples.one_entry_manager)) = 0%nat.
Proof.
  destruct (rebuild_index_failures Examples.one_entry_manager Examples.one_entry
              [{| IndexManager.id := 8; IndexManager.feature_vector := Some [1; 0] |}]
              eq_refl ltac:(discriminate)) as [H _].
  rewrite (H 2%nat); [reflexivity|cbn; lia|].
  intros x [<-|[]]. reflexivity.
Defined.

(** X16: the shutdown of the application never raises.  With a ready
    manager and a writable disk it leaves the files of the current index on
    the disk, and the next startup comes up ready with exactly that index;
    with no manager, or one that was never initialized, it writes nothing. *)
Theorem lifespan_shutdown_then_startup :
  (forall om, fst (main.shutdown om) = Returns tt)
  /\ (forall m, IndexManager._ready m = false ->
                main.shutdown (Some m) = (Returns tt, Some m))
  /\ (forall m e,
         IndexManager._ready m = true ->
         IndexManager.search_engine m = Some e ->
         writable (IndexManager.fs m) = true ->
         exists m',
           main.shutdown (Some m) = (Returns tt, Some m')
           /\ IndexManager.fs m' = SimilaritySearch.files_of e
           /\ fst (main.startup (IndexManager.fs m')) = Returns tt
           /\ main.health_index (Some (snd (main.startup (IndexManager.fs m')))) = true
           /\ IndexManager.search_engine (snd (main.startup (IndexManager.fs m')))
              = Some e).
Proof.
  split; [|split].
  - intros [m|]; [|reflexivity]. unfold main.shutdown, IndexManager.shutdown, bind, get.
    pose proof (save_index_returns m) as Hs.
    destruct (IndexManager._ready m), (IndexManager.search_engine m);
      try reflexivity.
    destruct (IndexManager._save_index m) as [o m']. exact Hs.
  - intros m Hr. unfold main.shutdown, IndexManager.shutdown, bind, get.
    rewrite Hr. reflexivity.
  - intros m e Hr He Hw.
    unfold main.shutdown, IndexManager.shutdown, bind, get.
    rewrite Hr, He, (save_index_eq m e He), Hw.
    eexists. split; [reflexivity|]. cbn [IndexManager.fs].
    split; [reflexivity|]. unfold main.startup. rewrite initialize_eq.
    split; [reflexivity|]. split; [reflexivity|].
    cbn [snd IndexManager.search_engine]. f_equal.
    unfold SimilaritySearch.files_of.
    erewrite load_stored; [|reflexivity|reflexivity]. cbn. apply self_eta.
Qed.

Lemma lifespan_shutdown_then_startup_witness :
  exists m',
    main.shutdown (Some Examples.one_entry_manager) = (Returns tt, Some m')
    /\ IndexManager.search_engine (snd (main.startup (IndexManager.fs m')))
       = Some Examples.one_entry.
Proof.
  destruct lifespan_shutdown_then_startup as [_ [_ H]].
  destruct (H Examples.one_entry_manager Examples.one_entry eq_refl eq_refl eq_refl)
    as [m' [H1 [_ [_ [_ H2]]]]].
  exists m'. auto.
Defined.

End ManagerRebuild.

(** ** The mesh processor: the Open3D copy, idempotence, loading *)

Section MeshExtras.
Import trimesh MeshProcessor.

Lemma sum_shifted {T} (g : T -> R) (x : R) (ts : list T) :
  np.sum (map (fun t => g t - x) ts) = np.sum (map g ts) - INR (length ts) * x.
Proof.
  unfold np.sum. induction ts as [|t ts IH]; [simpl; ring|].
  rewrite length_cons, S_INR. simpl. rewrite IH. ring.
Qed.

Lemma sum_scaled {T} (g : T -> R) (k : R) (ts : list T) :
  np.sum (map (fun t => k * g t) ts) = k * np.sum (map g ts).
Proof.
  unfold np.sum. induction ts as [|t ts IH]; simpl; [ring|]. rewrite IH. ring.
Qed.

Lemma INR_length_nonzero {A} (l : list A) : l <> [] -> INR (length l) <> 0.
Proof.
  destruct l as [|a l]; [contradiction|]. intros _.
  rewrite length_cons, S_INR. pose proof (pos_INR (length l)). lra.
Qed.

(** Subtracting the mean of the points puts their mean at the origin. *)
Lemma vmean_centered (vs : list vec3) :
  vs <> [] -> vmean (map (fun v => vsub v (vmean vs)) vs) = vzero.
Proof.
  intros Hne. pose proof (INR_length_nonzero vs Hne) as Hn.
  apply vec3_ext. intros i. unfold vmean.
  rewrite coord_vdiv, coord_vsum, map_map, length_map, coord_vzero.
  rewrite (map_ext (fun v => coord i (vsub v (vdiv (vsum vs) (INR (length vs)))))
                   (fun v => coord i v - coord i (vsum vs) / INR (length vs)))
    by (intros v; now rewrite coord_vsub, coord_vdiv).
  rewrite sum_shifted, coord_vsum. field. exact Hn.
Qed.

Lemma vmean_scaled (k : R) (vs : list vec3) :
  vmean (map (vscale k) vs) = vscale k (vmean vs).
Proof.
  apply vec3_ext. intros i. unfold vmean.
  rewrite coord_vscale, !coord_vdiv, !coord_vsum, map_map, length_map.
  rewrite (map_ext (fun v => coord i (vscale k v)) (fun v => k * coord i v))
    by (intros v; apply coord_vscale).
  rewrite sum_scaled. unfold Rdiv. ring.
Qed.

Lemma vscale_vzero (k : R) : vscale k vzero = vzero.
Proof. unfold vscale, vzero. f_equal; [f_equal|]; ring. Qed.

(** X17: the Open3D copy of the mesh is normalized about the mean of its
    vertex positions: on a mesh with at least one vertex [_normalize_open3d]
    returns, keeps the triangles and the number of vertices, and the mean of
    the vertex positions of the result is the origin; when some vertex is
    off the mean, the largest vertex norm of the result is 1. *)
Theorem normalize_open3d_spec (mesh : O3DMesh) :
  o3d_vertices mesh <> [] ->
  exists o max_distance,
    _normalize_open3d mesh = Returns o
    /\ o3d_triangles o = o3d_triangles mesh
    /\ length (o3d_vertices o) = length (o3d_vertices mesh)
    /\ vmean (o3d_vertices o) = vzero
    /\ Forall (fun v => vnorm (vsub v (vmean (o3d_vertices mesh))) <= max_distance)
              (o3d_vertices mesh)
    /\ (0 < max_distance ->
        Forall (fun v => vnorm v <= 1) (o3d_vertices o)
        /\ Exists (fun v => vnorm v = 1) (o3d_vertices o)).
Proof.
  intros Hne. unfold _normalize_open3d.
  destruct (o3d_vertices mesh) as [|v0 vs0] eqn:Ev; [contradiction|].
  rewrite <- Ev in *. clear v0 vs0 Ev.
  set (c := vmean (o3d_vertices mesh)).
  set (translated := map (fun v => vsub v c) (o3d_vertices mesh)).
  set (M := np_max 0 (map vnorm translated)).
  pose proof (np_max_upper 0 (map vnorm translated)) as Hup. fold M in Hup.
  pose proof (np_max_in 0 (map vnorm translated)) as Hin. fold M in Hin.
  assert (Hmean : vmean translated = vzero) by (apply vmean_centered, Hne).
  assert (Hall : Forall (fun v => vnorm (vsub v c) <= M) (o3d_vertices mesh)).
  { apply Forall_forall. intros v Hv. rewrite Forall_forall in Hup. apply Hup.
    right. unfold translated. rewrite map_map. apply in_map_iff. exists v. auto. }
  destruct (Rlt_dec 0 M) as [Hpos|Hnpos].
  - eexists _, M. split; [reflexivity|]. cbn [o3d_triangles o3d_vertices].
    split; [reflexivity|]. split; [unfold translated; now rewrite !length_map|].
    split; [rewrite vmean_scaled, Hmean; apply vscale_vzero|].
    split; [exact Hall|]. intros _.
    assert (Hk : 0 <= 1 / M) by (apply Rlt_le, Rdiv_lt_0_compat; lra).
    split.
    + apply Forall_forall. intros v' Hv'. apply in_map_iff in Hv'.
      destruct Hv' as [v [<- Hv]]. rewrite vnorm_vscale by exact Hk.
      rewrite Forall_forall in Hup.
      assert (Hle : vnorm v <= M) by (apply Hup; right; now apply in_map).
      apply (Rmult_le_reg_r M); [exact Hpos|].
      replace (1 / M * vnorm v * M) with (vnorm v) by (field; lra). lra.
    + destruct Hin as [H0|Hin]; [lra|].
      apply in_map_iff in Hin. destruct Hin as [v [Hv Hi]].
      apply Exists_exists. exists (vscale (1 / M) v). split; [now apply in_map|].
      rewrite vnorm_vscale by exact Hk. rewrite Hv. field. lra.
  - eexists _, M. split; [reflexivity|]. cbn [o3d_triangles o3d_vertices].
    split; [reflexivity|]. split; [unfold translated; now rewrite length_map|].
    split; [exact Hmean|]. split; [exact Hall|]. intros Hpos. contradiction.
Qed.

Lemma normalize_open3d_spec_witness :
  exists o max_distance,
    _normalize_open3d (_trimesh_to_open3d Examples.kite) = Returns o
    /\ vmean (o3d_vertices o) = vzero
    /\ Forall (fun v => vnorm (vsub v (vmean (vertices Examples.kite))) <= max_distance)
              (vertices Examples.kite).
Proof.
  destruct (normalize_open3d_spec (_trimesh_to_open3d Examples.kite)
              ltac:(discriminate))
    as [o [M [H1 [_ [_ [H2 [H3 _]]]]]]].
  exists o, M. auto.
Defined.

End MeshExtras.

Section NormalizeTwice.
Import trimesh MeshProcessor.

Lemma np_max_scaled (m : R) (n : R) (ns : list R) :
  0 < m -> np_max (n / m) (map (fun x => x / m) ns) = np_max n ns / m.
Proof.
  intros Hm. unfold np_max. induction ns as [|a ns IH]; [reflexivity|].
  cbn [map fold_right]. rewrite IH.
  assert (Hi : 0 < / m) by now apply Rinv_0_lt_compat.
  set (X := fold_right Rmax n ns).
  destruct (Rle_dec a X) as [H|H].
  - rewrite (Rmax_right a X) by exact H. apply Rmax_right.
    unfold Rdiv. apply Rmult_le_compat_r; lra.
  - rewrite (Rmax_left a X) by lra. apply Rmax_left.
    unfold Rdiv. apply Rmult_le_compat_r; lra.
Qed.

Lemma vsub_vzero (v : vec3) : vsub v vzero = v.
Proof. destruct v as [[x y] z]. unfold vsub, vzero. f_equal; [f_equal|]; ring. Qed.

Lemma vdiv_1 (v : vec3) : vdiv v 1 = v.
Proof. destruct v as [[x y] z]. unfold vdiv. f_equal; [f_equal|]; field. Qed.

Lemma vnorm_recentre (c : vec3) (m : R) (v : vec3) :
  0 < m -> vnorm (recentre c m v) = vnorm (vsub v c) / m.
Proof. intros Hm. unfold recentre. now apply vnorm_vdiv. Qed.

(** X18: normalizing twice is normalizing once: on a mesh with at least one
    face (indices in range) [_normalize_trimesh] returns a mesh on which
    [_normalize_trimesh] returns that same mesh. *)
Theorem normalize_trimesh_idempotent (m : Trimesh) (ts : list triangle) :
  triangles m = Some ts -> ts <> [] ->
  exists m',
    _normalize_trimesh m = Returns (Num m')
    /\ _normalize_trimesh m' = Returns (Num m').
Proof.
  intros Hts Hne.
  destruct (normalize_trimesh_eq m ts Hts Hne) as [n [ns [E [_ Hn]]]].
  set (c := centroid_point ts) in *. set (M := np_max n ns) in *.
  (* both branches of the first pass are a [recentre c m1] with [m1 > 0] *)
  set (m1 := if Rlt_dec 0 M then M else 1).
  assert (Hm1 : 0 < m1) by (unfold m1; destruct (Rlt_dec 0 M); lra).
  set (vs' := map (recentre c m1) (vertices m)).
  assert (Hfirst : _normalize_trimesh m = Returns (Num (with_vertices m vs'))).
  { rewrite Hn. unfold vs', m1. destruct (Rlt_dec 0 M); [reflexivity|].
    do 3 f_equal. apply map_ext. intros v. unfold recentre.
    now rewrite vdiv_1. }
  exists (with_vertices m vs'). split; [exact Hfirst|].
  (* the second pass *)
  pose proof (triangles_map (recentre c m1) m ts Hts) as Hts'. fold vs' in Hts'.
  assert (Hne' : map (map_triangle (recentre c m1)) ts <> [])
    by (destruct ts; [contradiction|discriminate]).
  destruct (normalize_trimesh_eq _ _ Hts' Hne') as [n' [ns' [E' [_ Hn']]]].
  rewrite (centroid_point_centered c m1 Hm1 ts Hne) in E', Hn'.
  fold c in E', Hn'. rewrite (centered_at_itself c m1 Hm1) in E', Hn'.
  cbn [vertices with_vertices] in E', Hn'.
  assert (Hnorms : map (fun v => vnorm (vsub v vzero)) vs'
                   = (n / m1) :: map (fun x => x / m1) ns).
  { unfold vs'. rewrite map_map.
    rewrite (map_ext (fun v => vnorm (vsub (recentre c m1 v) vzero))
                     (fun v => vnorm (vsub v c) / m1))
      by (intros v; rewrite vsub_vzero; now apply vnorm_recentre).
    rewrite <- (map_map (fun v => vnorm (vsub v c)) (fun x => x / m1)), E.
    reflexivity. }
  rewrite Hnorms in E'. inversion E'; subst n' ns'. clear E'.
  rewrite np_max_scaled in Hn' by exact Hm1. fold M in Hn'.
  rewrite Hn'. do 2 f_equal. unfold with_vertices. cbn [faces]. f_equal.
  unfold m1. destruct (Rlt_dec 0 M) as [Hpos|Hnpos].
  - replace (M / M) with 1 by (field; lra).
    destruct (Rlt_dec 0 1) as [_|H]; [|lra].
    rewrite <- (map_id vs') at 2. apply map_ext. intros v.
    now rewrite vsub_vzero, vdiv_1.
  - replace (M / 1) with M by field.
    destruct (Rlt_dec 0 M) as [H|_]; [contradiction|].
    rewrite <- (map_id vs') at 2. apply map_ext. intros v. apply vsub_vzero.
Qed.

Lemma normalize_trimesh_idempotent_witness :
  exists m',
    _normalize_trimesh Examples.kite = Returns (Num m')
    /\ _normalize_trimesh m' = Returns (Num m').
Proof.
  apply (normalize_trimesh_idempotent Examples.kite Examples.kite_triangles);
    [reflexivity|discriminate].
Defined.

End NormalizeTwice.

Section LoadExtras.
Import trimesh MeshProcessor.

(** X19: loading succeeds on a mesh with at least one face (indices in
    range): when [trimesh.load] hands back such a mesh, [load_mesh] returns
    both meshes, with or without normalization, and in both of them the
    faces are the loaded faces and the number of vertices is the loaded
    one: normalization moves vertices only. *)
Theorem load_mesh_keeps_topology (trimesh_load : String.string -> outcome loaded)
  (self : t) (file_path : String.string) (m : Trimesh) (ts : list triangle) :
  trimesh_load file_path = Returns (LoadedTrimesh m) ->
  triangles m = Some ts -> ts <> [] ->
  exists m' o',
    load_mesh trimesh_load self file_path = Returns (Some (Num m'), Some o')
    /\ faces m' = faces m
    /\ length (vertices m') = length (vertices m)
    /\ o3d_triangles o' = faces m
    /\ length (o3d_vertices o') = length (vertices m).
Proof.
  intros Hload Hts Hne. unfold load_mesh, load_mesh_body. rewrite Hload.
  destruct (normalize self).
  - destruct (normalize_trimesh_eq m ts Hts Hne) as [n [ns [_ [_ Hn]]]].
    rewrite Hn.
    assert (Hvs : vertices m <> []).
    { destruct ts as [|t0 ts']; [contradiction|].
      eapply triangles_vertices; eauto. }
    unfold _normalize_open3d, _trimesh_to_open3d. cbn [o3d_vertices o3d_triangles].
    destruct (vertices m) as [|v0 vs0] eqn:Ev; [contradiction|].
    rewrite <- Ev.
    destruct (Rlt_dec 0 (np_max 0 _)); eexists _, _;
      (split; [reflexivity|]); cbn [faces vertices with_vertices o3d_triangles o3d_vertices];
      destruct (Rlt_dec 0 (np_max n ns)); cbn [faces vertices with_vertices];
      rewrite ?length_map; auto.
  - eexists _, _. split; [reflexivity|]. cbn. auto.
Qed.

Lemma load_mesh_keeps_topology_witness :
  exists m' o',
    load_mesh (fun _ => Returns (LoadedTrimesh Examples.kite))
              {| normalize := true |} String.EmptyString
    = Returns (Some (Num m'), Some o')
    /\ faces m' = faces Examples.kite.
Proof.
  destruct (load_mesh_keeps_topology (fun _ => Returns (LoadedTrimesh Examples.kite))
              {| normalize := true |} String.EmptyString
              Examples.kite Examples.kite_triangles eq_refl eq_refl
              ltac:(discriminate))
    as [m' [o' [H1 [H2 _]]]].
  exists m', o'. auto.
Defined.

End LoadExtras.

(** ** The extractor: single descriptors *)

Section DescriptorExtras.
Import trimesh FeatureExtractor.

Variable rng : Type.
Variable lib : library rng.


(** X21: the convexity descriptor always lies in [[0, 1]], whatever trimesh
    reports as volumes; it is exactly 1/2 for a mesh that is not watertight
    and when computing the convex hull raises, and exactly 1 for a
    watertight mesh whose hull has no positive volume. *)
Theorem convexity_range (mesh : Trimesh) :
  0 <= _compute_convexity rng lib mesh <= 1
  /\ (is_watertight lib mesh = false -> _compute_convexity rng lib mesh = / 2)
  /\ (forall e, is_watertight lib mesh = true ->
                convex_hull_volume lib mesh = Raises e ->
                _compute_convexity rng lib mesh = / 2)
  /\ (forall hull, is_watertight lib mesh = true ->
                   convex_hull_volume lib mesh = Returns hull -> hull <= 0 ->
                   _compute_convexity rng lib mesh = 1).
Proof.
  unfold _compute_convexity, clip01.
  destruct (is_watertight lib mesh); cbn [negb].
  - destruct (convex_hull_volume lib mesh) as [hull|e].
    + split; [|split; [discriminate|split; [discriminate|]]].
      * split.
        -- apply Rmin_glb; [|lra]. apply Rmax_r.
        -- apply Rmin_r.
      * intros h _ Hh Hle. inversion Hh; subst.
        destruct (Rlt_dec 0 h); [lra|].
        rewrite Rmax_left by lra. apply Rmin_left. lra.
    + split; [lra|]. split; [discriminate|]. split; [reflexivity|discriminate].
  - split; [lra|]. split; [reflexivity|]. split; discriminate.
Qed.

(** X22: on extents that are not negative the three bounding-box ratios
    are each positive, and the third ratio is the product of the first
    two. *)
Theorem bbox_features_positive (mesh : Trimesh) :
  0 <= vmin3 (extents lib mesh) ->
  exists r1 r2 r3,
    _compute_bbox_features rng lib mesh = [r1; r2; r3]
    /\ 0 < r1 /\ 0 < r2 /\ 0 < r3
    /\ r3 = r1 * r2.
Proof.
  unfold _compute_bbox_features, vmin3.
  destruct (extents lib mesh) as [[e0 e1] e2]. intros Hmin.
  assert (Heps : 0 < eps).
  { unfold eps. apply Rinv_0_lt_compat. apply pow_lt. lra. }
  assert (H0 : 0 <= e0) by (eapply Rle_trans; [exact Hmin|apply Rmin_l]).
  assert (H12 : 0 <= Rmin e1 e2) by (eapply Rle_trans; [exact Hmin|apply Rmin_r]).
  assert (H1 : 0 <= e1) by (eapply Rle_trans; [exact H12|apply Rmin_l]).
  assert (H2 : 0 <= e2) by (eapply Rle_trans; [exact H12|apply Rmin_r]).
  eexists _, _, _. split; [reflexivity|].
  repeat split; try (apply Rdiv_lt_0_compat; lra).
  field. split; lra.
Qed.

End DescriptorExtras.

Section DescriptorWitnesses.
Import trimesh FeatureExtractor.

Lemma bbox_features_positive_witness :
  exists r1 r2 r3,
    _compute_bbox_features unit Examples.simple_lib Examples.kite = [r1; r2; r3]
    /\ 0 < r1 /\ 0 < r2 /\ 0 < r3 /\ r3 = r1 * r2.
Proof.
  apply (bbox_features_positive unit Examples.simple_lib Examples.kite).
  cbn. apply Rmin_glb; [lra|apply Rmin_glb; lra].
Defined.

End DescriptorWitnesses.

Section MomentExtras.
Import trimesh FeatureExtractor.

Variable rng : Type.
Variable lib : library rng.







End MomentExtras.

Section MomentWitnesses.
Import trimesh FeatureExtractor.


End MomentWitnesses.

Section HistogramExtras.
Import trimesh FeatureExtractor.

Lemma list_min_le (x : R) (l : list R) : list_min x l <= x.
Proof.
  unfold list_min. induction l as [|a l IH]; simpl; [lra|].
  eapply Rle_trans; [apply Rmin_r|exact IH].
Qed.

Lemma list_max_ge (x : R) (l : list R) : x <= list_max x l.
Proof.
  unfold list_max. induction l as [|a l IH]; simpl; [lra|].
  eapply Rle_trans; [exact IH|apply Rmax_r].
Qed.

Lemma histogram_density_nonneg (a : list R) (bins : nat) :
  a <> [] -> (0 < bins)%nat ->
  Forall (fun h => 0 <= h) (histogram_density a bins).
Proof.
  intros Ha Hb. unfold histogram_density.
  set (lo0 := list_min (hd 0 a) a). set (hi0 := list_max (hd 0 a) a).
  assert (Hlh : lo0 <= hi0).
  { eapply Rle_trans; [apply list_min_le|apply list_max_ge]. }
  set (lo := if Req_dec_T lo0 hi0 then lo0 - / 2 else lo0).
  set (hi := if Req_dec_T lo0 hi0 then hi0 + / 2 else hi0).
  assert (Hw : 0 < hi - lo).
  { unfold lo, hi. destruct (Req_dec_T lo0 hi0); lra. }
  assert (Hbins : 0 < INR bins) by (apply lt_0_INR; exact Hb).
  assert (Hlen : 0 < INR (length a)).
  { apply lt_0_INR. destruct a; [contradiction|simpl; lia]. }
  assert (Hwidth : 0 < (hi - lo) / INR bins) by (apply Rdiv_lt_0_compat; assumption).
  apply Forall_forall. intros h Hh. apply in_map_iff in Hh.
  destruct Hh as [i [<- _]].
  apply Rmult_le_pos; [apply Rmult_le_pos|].
  - apply pos_INR.
  - apply Rlt_le, Rinv_0_lt_compat, Hlen.
  - apply Rlt_le, Rinv_0_lt_compat, Hwidth.
Qed.

Lemma sum_nonneg (l : list R) : Forall (fun h => 0 <= h) l -> 0 <= np.sum l.
Proof.
  unfold np.sum. induction 1 as [|h l Hh _ IH]; simpl; lra.
Qed.

Lemma sum_ge_member (l : list R) (h : R) :
  Forall (fun x => 0 <= x) l -> In h l -> h <= np.sum l.
Proof.
  unfold np.sum. induction 1 as [|x l Hx Hl IH]; simpl; [contradiction|].
  pose proof (sum_nonneg l Hl) as Hs. unfold np.sum in Hs.
  intros [->|Hin]; [lra|]. specialize (IH Hin). lra.
Qed.

Lemma eps_pos : 0 < eps.
Proof. unfold eps. apply Rinv_0_lt_compat, pow_lt. lra. Qed.

(** What the last step of the D2 descriptor, [hist / (sum(hist) + 1e-10)],
    makes of non-negative bin values. *)
Lemma normalized_histogram (hist : list R) :
  Forall (fun h => 0 <= h) hist ->
  Forall (fun x => 0 <= x < 1) (map (fun h => h / (np.sum hist + eps)) hist)
  /\ 0 <= np.sum (map (fun h => h / (np.sum hist + eps)) hist) < 1.
Proof.
  intros Hpos. pose proof (sum_nonneg hist Hpos) as Hs. pose proof eps_pos as He.
  set (total := np.sum hist + eps). assert (Ht : 0 < total) by (unfold total; lra).
  split.
  - apply Forall_forall. intros x Hx. apply in_map_iff in Hx.
    destruct Hx as [h [<- Hh]].
    pose proof (sum_ge_member hist h Hpos Hh) as Hle.
    rewrite Forall_forall in Hpos. specialize (Hpos h Hh). split.
    + apply Rmult_le_pos; [exact Hpos|]. apply Rlt_le, Rinv_0_lt_compat, Ht.
    + apply (Rmult_lt_reg_r total); [exact Ht|].
      replace (h / total * total) with h by (field; lra). unfold total. lra.
  - rewrite sum_map_div, map_id. split.
    + apply Rmult_le_pos; [exact Hs|]. apply Rlt_le, Rinv_0_lt_compat, Ht.
    + apply (Rmult_lt_reg_r total); [exact Ht|].
      replace (np.sum hist / total * total) with (np.sum hist) by (field; lra).
      unfold total. lra.
Qed.

Variable rng : Type.
Variable lib : library rng.

(** X24: when [randint] hands back as many indices as it is asked for and
    at least two sample points are requested, the D2 descriptor of the
    default extractor has 64 values, each in [[0, 1)], and their sum is in
    [[0, 1)] too: it never reaches 1. *)
Theorem d2_descriptor_range (mesh : Trimesh) (n : nat) (g : rng) :
  (forall lo hi size g', length (fst (randint lib lo hi size g')) = size) ->
  (2 <= n)%nat ->
  let d := fst (_compute_d2_descriptor rng lib default mesh n g) in
  length d = 64%nat
  /\ Forall (fun x => 0 <= x < 1) d
  /\ 0 <= np.sum d < 1.
Proof.
  intros Hrand Hn. cbv zeta. unfold _compute_d2_descriptor.
  destruct (sample_surface lib mesh n g) as [points g1].
  pose proof (Hrand 0%nat (length points) (Nat.min (n / 2) 5000) g1) as H1.
  destruct (randint lib 0 (length points) (Nat.min (n / 2) 5000) g1) as [idx1 g2].
  pose proof (Hrand 0%nat (length points) (Nat.min (n / 2) 5000) g2) as H2.
  destruct (randint lib 0 (length points) (Nat.min (n / 2) 5000) g2) as [idx2 g3].
  cbn [fst] in *.
  set (distances := map _ (combine idx1 idx2)).
  assert (Hpairs : (0 < Nat.min (n / 2) 5000)%nat).
  { apply Nat.min_glb_lt.
    - apply Nat.div_str_pos. lia.
    - apply Nat.ltb_lt. vm_compute. reflexivity. }
  assert (Hd : distances <> []).
  { intros He. apply (f_equal (@length R)) in He. unfold distances in He.
    rewrite length_map, length_combine, H1, H2, Nat.min_id in He.
    cbn [length] in He. rewrite He in Hpairs. inversion Hpairs. }
  assert (Hpos : Forall (fun h => 0 <= h) (histogram_density distances (d2_bins default))).
  { apply histogram_density_nonneg; [exact Hd|]. cbn. lia. }
  destruct (normalized_histogram _ Hpos) as [Hall Hsum].
  split; [|split; assumption].
  rewrite length_map. apply histogram_density_length.
Qed.


End HistogramExtras.

Section HistogramWitnesses.
Import trimesh FeatureExtractor.

Lemma d2_descriptor_range_witness :
  let d := fst (_compute_d2_descriptor unit Examples.simple_lib default
                  Examples.kite 10000 tt) in
  length d = 64%nat
  /\ Forall (fun x => 0 <= x < 1) d
  /\ 0 <= np.sum d < 1.
Proof.
  apply (d2_descriptor_range unit Examples.simple_lib Examples.kite 10000 tt).
  - intros lo hi size g'. cbn. apply repeat_length.
  - apply Nat.leb_le. vm_compute. reflexivity.
Defined.

End HistogramWitnesses.
